(** * Claire: per-tab request tracking and Railgun header decoding

    A shallow embedding of [claire.js] (the background page of the Claire
    browser extension) and the properties of its header decoder, request
    record, tab registry and event handlers.

    The file has three layers:
    - the fragment of the ECMAScript runtime the program relies on
      (Number values, string conversions, [parseInt], [indexOf], [split]);
    - the program itself: [Request] and its methods, the [requests]
      registry and the five event listeners, written in a state and
      exception monad over an explicit object heap;
    - the properties.

    Conventions.  A JavaScript string is a [string]; a character stands for
    a code unit below 256.  A Number is a binary64 value, represented by
    [spec_float] at precision 53 and maximal exponent 1024, every finite
    value in canonical form.  Objects of the program are records; the
    [Request] objects live in a heap and are referred to by location. *)

From Stdlib Require Import ZArith String Ascii List Bool Lia SpecFloat DecimalString.
From stdpp Require Import gmap strings list.

Local Open Scope string_scope.
Local Open Scope Z_scope.

(** ** Number values *)

Module Number.

Definition number : Type := spec_float.

Definition prec : Z := 53.
Definition emax : Z := 1024.

Definition NaN : number := S754_nan.
Definition Infinity (neg : bool) : number := S754_infinity neg.

(** The Number value for a mathematical integer (round to nearest, ties
    to even). *)
Definition of_Z (z : Z) : number := binary_normalize prec emax z 0 false.

(** The Number value for the ratio [p / q] of two positive integers. *)
Definition of_ratio (neg : bool) (p q : positive) : number :=
  let '(mz, ez, lz) := SFdiv_core_binary prec emax (Zpos p) 0 (Zpos q) 0 in
  binary_round_aux prec emax neg mz ez lz.

(** The Number value for [(-1)^neg * d * 10^x], [d >= 0]. *)
Definition of_decimal (neg : bool) (d x : Z) : number :=
  match d with
  | Zpos p =>
      if 0 <=? x then binary_round prec emax neg (p * Z.to_pos (10 ^ x)) 0
      else of_ratio neg p (Z.to_pos (10 ^ (- x)))
  | _ => S754_zero neg
  end.

Definition sub (x y : number) : number := SFsub prec emax x y.

Definition eqb (x y : number) : bool := SFeqb x y.

(** truncate(x) for a finite [x]. *)
Definition truncate (x : number) : Z :=
  match x with
  | S754_finite s m e =>
      let a := if 0 <=? e then Zpos m * 2 ^ e else Zpos m / 2 ^ (- e) in
      if s then - a else a
  | _ => 0
  end.

(** ToInt32: NaN, zeros and infinities go to 0; a finite value is
    truncated and wrapped into [-2^31, 2^31). *)
Definition ToInt32 (x : number) : Z :=
  match x with
  | S754_finite _ _ _ =>
      let int32bit := truncate x mod 2 ^ 32 in
      if 2 ^ 31 <=? int32bit then int32bit - 2 ^ 32 else int32bit
  | _ => 0
  end.

(** The bitwise [&] of two Numbers. *)
Definition bitand (x y : number) : Z := Z.land (ToInt32 x) (ToInt32 y).

(** *** Number::toString, radix 10

    For a finite non-zero [x], the integers [n], [k] and [s] with
    [10^(k-1) <= s < 10^k], [k] as small as possible, and
    [s * 10^(n-k)] a decimal whose Number value is [x]; among the
    candidates for [s] the one closest to [x], the even one on a tie. *)

(** [x < 10^n] for [x = num / den]. *)
Definition lt_pow10 (num den n : Z) : bool :=
  if 0 <=? n then num <? 10 ^ n * den else num * 10 ^ (- n) <? den.

(** The [n] with [10^(n-1) <= num/den < 10^n], searched from a guess. *)
Fixpoint decimal_exponent (fuel : nat) (num den n : Z) : Z :=
  match fuel with
  | O => n
  | S fuel' =>
      if lt_pow10 num den n then
        if lt_pow10 num den (n - 1) then decimal_exponent fuel' num den (n - 1)
        else n
      else decimal_exponent fuel' num den (n + 1)
  end.

(** The digits [s] for a given length [k], if some [k]-digit decimal has
    Number value [x]; [x = num / den] and [10^(n-1) <= x < 10^n]. *)
Definition digits_of_length (x : number) (num den n k : Z) : option Z :=
  let p := n - k in
  let a := if 0 <=? p then num else num * 10 ^ (- p) in
  let b := if 0 <=? p then den * 10 ^ p else den in
  let lo := a / b in
  let r := a mod b in
  let hi := lo + 1 in
  let ok_lo := eqb (of_decimal false lo p) x in
  let ok_hi := eqb (of_decimal false hi p) x in
  match ok_lo, ok_hi with
  | true, true =>
      match 2 * r ?= b with
      | Lt => Some lo
      | Gt => Some hi
      | Eq => Some (if Z.even lo then lo else hi)
      end
  | true, false => Some lo
  | false, true => Some hi
  | false, false => None
  end.

Fixpoint shortest_digits (fuel : nat) (x : number) (num den n k : Z) : Z * Z :=
  match digits_of_length x num den n k with
  | Some s => (s, k)
  | None =>
      match fuel with
      | O => (num * 10 ^ (k - n) / den, k)
      | S fuel' => shortest_digits fuel' x num den n (k + 1)
      end
  end.

Definition digits_string (s : Z) : string :=
  NilZero.string_of_uint (N.to_uint (Z.to_N s)).

Definition zeros (n : Z) : string :=
  string_of_list_ascii (repeat "0"%char (Z.to_nat n)).

Definition substring_Z (from to : Z) (s : string) : string :=
  String.substring (Z.to_nat from) (Z.to_nat (to - from)) s.

Definition format_decimal (n k : Z) (ds : string) : string :=
  if (k <=? n) && (n <=? 21) then ds +:+ zeros (n - k)
  else if (0 <? n) && (n <=? 21) then
    substring_Z 0 n ds +:+ "." +:+ substring_Z n k ds
  else if (-6 <? n) && (n <=? 0) then "0." +:+ zeros (- n) +:+ ds
  else
    let c := if n - 1 <? 0 then "-" else "+" in
    let e := digits_string (Z.abs (n - 1)) in
    if k =? 1 then ds +:+ "e" +:+ c +:+ e
    else substring_Z 0 1 ds +:+ "." +:+ substring_Z 1 k ds +:+ "e" +:+ c +:+ e.

Definition toString_finite (m : positive) (e : Z) : string :=
  let num := if 0 <=? e then Zpos m * 2 ^ e else Zpos m in
  let den := if 0 <=? e then 1 else 2 ^ (- e) in
  let guess := (Z.log2 num - Z.log2 den) * 30103 / 100000 + 1 in
  let n0 := decimal_exponent 8 num den guess in
  let '(s, k) := shortest_digits 17 (S754_finite false m e) num den n0 1 in
  let '(s, n) := if s =? 10 ^ k then (10 ^ (k - 1), n0 + 1) else (s, n0) in
  format_decimal n k (digits_string s).

Definition toString (x : number) : string :=
  match x with
  | S754_nan => "NaN"
  | S754_zero _ => "0"
  | S754_infinity s => if s then "-Infinity" else "Infinity"
  | S754_finite s m e =>
      if s then "-" +:+ toString_finite m e else toString_finite m e
  end.

End Number.

(** ** Strings *)

Module JSString.

Definition code (c : ascii) : Z := Z.of_N (N_of_ascii c).

(** StrWhiteSpaceChar: WhiteSpace and LineTerminator code units (TAB, LF,
    VT, FF, CR, SP, NBSP below 256). *)
Definition isStrWhiteSpaceChar (c : ascii) : bool :=
  let n := code c in
  (n =? 9) || (n =? 10) || (n =? 11) || (n =? 12) || (n =? 13)
  || (n =? 32) || (n =? 160).

Fixpoint trimStart (s : string) : string :=
  match s with
  | String c r => if isStrWhiteSpaceChar c then trimStart r else s
  | EmptyString => EmptyString
  end.

Fixpoint trimEnd (s : string) : string :=
  match s with
  | String c r =>
      match trimEnd r with
      | EmptyString => if isStrWhiteSpaceChar c then EmptyString else String c EmptyString
      | r' => String c r'
      end
  | EmptyString => EmptyString
  end.

Definition trim (s : string) : string := trimEnd (trimStart s).

(** The value of a digit in the given radix (at most 16 here). *)
Definition digitValue (radix : Z) (c : ascii) : option Z :=
  let n := code c in
  let v :=
    if (48 <=? n) && (n <=? 57) then Some (n - 48)
    else if (97 <=? n) && (n <=? 102) then Some (n - 87)
    else if (65 <=? n) && (n <=? 70) then Some (n - 55)
    else None in
  match v with
  | Some d => if d <? radix then Some d else None
  | None => None
  end.

(** The longest prefix of radix digits, and what follows it. *)
Fixpoint readDigits (radix : Z) (s : string) : list Z * string :=
  match s with
  | String c r =>
      match digitValue radix c with
      | Some d => let '(ds, rest) := readDigits radix r in (d :: ds, rest)
      | None => (nil, s)
      end
  | EmptyString => (nil, EmptyString)
  end.

Definition digitsValue (radix : Z) (ds : list Z) : Z :=
  fold_left (fun acc d => acc * radix + d) ds 0.

(** An optional sign, and what follows it. *)
Definition readSign (s : string) : bool * string :=
  match s with
  | String "-" r => (true, r)
  | String "+" r => (false, r)
  | _ => (false, s)
  end.

(** String.prototype.indexOf(searchString): the least index at which
    [needle] occurs in [s], or -1. *)
Fixpoint indexOf_from (i : Z) (s needle : string) : Z :=
  if String.prefix needle s then i
  else match s with
       | String _ r => indexOf_from (i + 1) r needle
       | EmptyString => -1
       end.

Definition indexOf (s needle : string) : Z := indexOf_from 0 s needle.

(** String.prototype.split(separator) for a separator of one code unit. *)
Fixpoint split (sep : ascii) (s : string) : list string :=
  match s with
  | EmptyString => [EmptyString]
  | String c r =>
      if Ascii.eqb c sep then EmptyString :: split sep r
      else match split sep r with
           | x :: xs => String c x :: xs
           | [] => [String c EmptyString]
           end
  end.

(** Array.prototype.join(separator) on an array of strings. *)
Fixpoint join (sep : string) (l : list string) : string :=
  match l with
  | [] => EmptyString
  | [x] => x
  | x :: xs => x +:+ sep +:+ join sep xs
  end.

(** String.prototype.toUpperCase on ASCII text (HTTP field names are
    tokens of ASCII characters): a-z go to A-Z.  Outside ASCII the method
    maps further letters, some to characters above 255; what depends on the
    upper-casing of such text is not stated here. *)
Definition toUpperCase_char (c : ascii) : ascii :=
  let n := code c in
  if (97 <=? n) && (n <=? 122) then ascii_of_N (Z.to_N (n - 32)) else c.

Fixpoint toUpperCase (s : string) : string :=
  match s with
  | String c r => String (toUpperCase_char c) (toUpperCase r)
  | EmptyString => EmptyString
  end.

(** *** parseInt(string, 10) on a string

    Leading white space is skipped, one sign is read, then the longest
    run of decimal digits; no digit gives NaN, and a negative zero keeps
    its sign. *)
Definition parseInt10 (inputString : string) : Number.number :=
  let '(neg, body) := readSign (trimStart inputString) in
  let '(ds, _) := readDigits 10 body in
  match ds with
  | [] => Number.NaN
  | _ =>
      let mathInt := digitsValue 10 ds in
      if mathInt =? 0 then S754_zero neg
      else Number.of_decimal neg mathInt 0
  end.

(** *** StringToNumber

    The whole trimmed text has to be a StrNumericLiteral: a signed
    decimal literal (or Infinity), or an unsigned binary, octal or
    hexadecimal integer literal; the empty text is +0. *)
Definition nonDecimalLiteral (radix : Z) (body : string) : Number.number :=
  match readDigits radix body with
  | ((_ :: _) as ds, EmptyString) => Number.of_decimal false (digitsValue radix ds) 0
  | _ => Number.NaN
  end.

(** ExponentPart_opt followed by the end of the text; [None] when the
    text is neither. *)
Definition readExponent (s : string) : option Z :=
  match s with
  | EmptyString => Some 0
  | String c r =>
      if Ascii.eqb c "e" || Ascii.eqb c "E" then
        let '(neg, r) := readSign r in
        match readDigits 10 r with
        | ((_ :: _) as ds, EmptyString) =>
            Some (if neg then - digitsValue 10 ds else digitsValue 10 ds)
        | _ => None
        end
      else None
  end.

Definition unsignedDecimalLiteral (neg : bool) (s : string) : Number.number :=
  if String.eqb s "Infinity" then Number.Infinity neg
  else
    let '(ip, rest) := readDigits 10 s in
    let '(fp, rest) :=
      match rest with
      | String "." r => readDigits 10 r
      | _ => ([], rest)
      end in
    match ip, fp with
    | [], [] => Number.NaN
    | _, _ =>
        match readExponent rest with
        | Some e =>
            Number.of_decimal neg (digitsValue 10 (ip ++ fp))
                              (e - Z.of_nat (List.length fp))
        | None => Number.NaN
        end
    end.

Definition StringToNumber (str : string) : Number.number :=
  match trim str with
  | EmptyString => S754_zero false
  | String "0" (String "x" r) | String "0" (String "X" r) => nonDecimalLiteral 16 r
  | String "0" (String "o" r) | String "0" (String "O" r) => nonDecimalLiteral 8 r
  | String "0" (String "b" r) | String "0" (String "B" r) => nonDecimalLiteral 2 r
  | String "-" r => unsignedDecimalLiteral true r
  | String "+" r => unsignedDecimalLiteral false r
  | s => unsignedDecimalLiteral false s
  end.

End JSString.

(** ** Values, conversions and completions *)

Import Number JSString.

(** The primitive values the program handles. *)
Inductive val : Type :=
| VUndefined
| VNull
| VBool (b : bool)
| VNum (n : number)
| VStr (s : string).

Definition typeof (v : val) : string :=
  match v with
  | VUndefined => "undefined"
  | VNull => "object"
  | VBool _ => "boolean"
  | VNum _ => "number"
  | VStr _ => "string"
  end.

Definition ToBoolean (v : val) : bool :=
  match v with
  | VUndefined | VNull => false
  | VBool b => b
  | VNum (S754_zero _) | VNum S754_nan => false
  | VNum _ => true
  | VStr s => negb (String.eqb s EmptyString)
  end.

Definition ToString (v : val) : string :=
  match v with
  | VUndefined => "undefined"
  | VNull => "null"
  | VBool b => if b then "true" else "false"
  | VNum n => Number.toString n
  | VStr s => s
  end.

Definition ToNumber (v : val) : number :=
  match v with
  | VUndefined => NaN
  | VNull => S754_zero false
  | VBool b => if b then Number.of_Z 1 else S754_zero false
  | VNum n => n
  | VStr s => StringToNumber s
  end.

(** [parseInt(v, 10)]. *)
Definition parseInt (v : val) : number := parseInt10 (ToString v).

(** [v + s] for a string [s]: the other operand is converted to a string. *)
Definition add_string (v : val) (s : string) : string := ToString v +:+ s.

(** [v === s] for a string [s]. *)
Definition strict_equal_string (v : val) (s : string) : bool :=
  match v with
  | VStr s' => String.eqb s' s
  | _ => false
  end.

(** What can be thrown: the runtime's TypeError, an error raised by a host
    call, and [Dangling], which marks a read of a location outside the
    heap; no handler produces a location it did not allocate. *)
Inductive exn : Type := TypeError | HostError | Dangling.

(** How an evaluation completes. *)
Inductive completion (A : Type) : Type :=
| Normal (a : A)
| Throw (e : exn).
Arguments Normal {A} a.
Arguments Throw {A} e.

#[global] Instance completion_ret : MRet completion := @Normal.
#[global] Instance completion_bind : MBind completion := fun A B f c =>
  match c with
  | Normal a => f a
  | Throw e => Throw e
  end.

(** [this.indexOf(searchString)]: only a string has the method. *)
Definition call_indexOf (this : val) (searchString : string) : completion Z :=
  match this with
  | VStr s => Normal (indexOf s searchString)
  | _ => Throw TypeError
  end.

(** [this.split(' ')]. *)
Definition call_split_space (this : val) : completion (list string) :=
  match this with
  | VStr s => Normal (split " " s)
  | _ => Throw TypeError
  end.

(** [array[i]]: [undefined] past the end. *)
Definition element (parts : list string) (i : nat) : val :=
  match parts !! i with
  | Some s => VStr s
  | None => VUndefined
  end.

(** [object[key]] on an object used as a map of values. *)
Definition property (o : gmap string val) (key : string) : val :=
  match o !! key with
  | Some v => v
  | None => VUndefined
  end.

(** [key in object].  The keys looked up are upper-case or numeric, and
    no inherited property has such a name. *)
Definition has_property {K V} `{Countable K} (key : K) (o : gmap K V) : bool :=
  bool_decide (is_Some (o !! key)).

(** ** The Request object *)

(** One entry of [details.responseHeaders]; the host leaves [value]
    undefined when the header is not text. *)
Record HttpHeader : Type := {
  name : string;
  value : val;
}.

(** The details of a completed request, as the host passes them to the
    listener: [ip] and [responseHeaders] are optional. *)
Record Details : Type := {
  tabId : Z;
  url : string;
  ip : val;
  fromCache : bool;
  responseHeaders : option (list HttpHeader);
}.

(** [railgunMetaData]: each property is absent ([None]) until assigned. *)
Record RailgunMetaData : Type := {
  rg_normal : option bool;
  rg_id : option val;
  rg_version : option val;
  rg_compression : option string;
  rg_time : option string;
  rg_flags : option number;
  rg_messages : option (list string);
}.

Definition empty_metadata : RailgunMetaData :=
  {| rg_normal := None; rg_id := None; rg_version := None;
     rg_compression := None; rg_time := None; rg_flags := None;
     rg_messages := None |}.

Record Request : Type := {
  details : Details;
  headersRaw : option (list HttpHeader);
  headers : gmap string val;
  hasSPDYStatus : bool;
  railgunMetaData : option RailgunMetaData;
  SPDY : val;
}.

Definition set_headers (h : gmap string val) (r : Request) : Request :=
  {| details := details r; headersRaw := headersRaw r; headers := h;
     hasSPDYStatus := hasSPDYStatus r; railgunMetaData := railgunMetaData r;
     SPDY := SPDY r |}.

Definition set_railgunMetaData (md : RailgunMetaData) (r : Request) : Request :=
  {| details := details r; headersRaw := headersRaw r; headers := headers r;
     hasSPDYStatus := hasSPDYStatus r; railgunMetaData := Some md;
     SPDY := SPDY r |}.

Definition set_hasSPDYStatus (b : bool) (r : Request) : Request :=
  {| details := details r; headersRaw := headersRaw r; headers := headers r;
     hasSPDYStatus := b; railgunMetaData := railgunMetaData r;
     SPDY := SPDY r |}.

Definition set_SPDY (v : val) (r : Request) : Request :=
  {| details := details r; headersRaw := headersRaw r; headers := headers r;
     hasSPDYStatus := hasSPDYStatus r; railgunMetaData := railgunMetaData r;
     SPDY := v |}.

(** *** The flags table *)

Record Flag : Type := {
  position : Z;
  message : string;
}.

(** [railgunFlags], in the order of the object literal, which is the order
    [for (var flagKey in railgunFlags)] visits it. *)
Definition railgunFlags : list (string * Flag) :=
  [ ("FLAG_DOMAIN_MAP_USED",
      {| position := 0x01; message := "map.file used to change IP" |});
    ("FLAG_DEFAULT_IP_USED",
      {| position := 0x02; message := "map.file default IP used" |});
    ("FLAG_HOST_CHANGE",
      {| position := 0x04; message := "Host name change" |});
    ("FLAG_REUSED_CONNECTION",
      {| position := 0x08; message := "Existing connection reused" |});
    ("FLAG_HAD_DICTIONARY",
      {| position := 0x10; message := "Railgun sender sent dictionary" |});
    ("FLAG_WAS_CACHED",
      {| position := 0x20; message := "Dictionary found in memcache" |});
    ("FLAG_RESTART_CONNECTION",
      {| position := 0x40; message := "Restarted broken origin connection" |}) ].

(** [(flagsBitset & flag.position) !== 0]. *)
Definition flag_set (flagsBitset : number) (flag : Flag) : bool :=
  negb (Number.bitand flagsBitset (Number.of_Z (position flag)) =? 0).

(** The loop that fills [messages]. *)
Definition decode_flags (flagsBitset : number) : list string :=
  fold_left
    (fun messages entry =>
       let flag := snd entry in
       if flag_set flagsBitset flag then (messages ++ [message flag])%list
       else messages)
    railgunFlags [].

(** *** Request.prototype.processRailgunHeader

    The method assigns [this.railgunMetaData]; the result here is [this]
    after the assignment (the caller does not use what the method returns). *)

Definition processRailgunHeader (this : Request) : completion Request :=
  let railgunHeader := property (headers this) "CF-RAILGUN" in
  if negb (String.eqb (typeof railgunHeader) "string") then
    Normal (set_railgunMetaData empty_metadata this)
  else
    i ← call_indexOf railgunHeader "normal";
    let railgunNormal := negb (i =? -1) in
    parts ← call_split_space railgunHeader;
    let md :=
      if railgunNormal then
        let flagsBitset := parseInt (element parts 1) in
        {| rg_normal := Some railgunNormal;
           rg_id := Some (element parts 0);
           rg_version := Some (element parts 3);
           rg_compression := None;
           rg_time := None;
           rg_flags := Some flagsBitset;
           rg_messages := Some (decode_flags flagsBitset) |}
      else
        let flagsBitset := parseInt (element parts 3) in
        {| rg_normal := Some railgunNormal;
           rg_id := Some (element parts 0);
           rg_version := Some (element parts 4);
           rg_compression :=
             Some (add_string
                     (VNum (Number.sub (Number.of_Z 100)
                                       (ToNumber (element parts 1)))) "%");
           rg_time := Some (add_string (element parts 2) "sec");
           rg_flags := Some flagsBitset;
           rg_messages := Some (decode_flags flagsBitset) |} in
    Normal (set_railgunMetaData md this).

(** *** Request.prototype.preProcessHeaders and the constructor *)

Definition preProcessHeaders (this : Request) : completion Request :=
  match headersRaw this with
  | None => Throw TypeError
  | Some raw =>
      let this :=
        fold_left
          (fun this header =>
             set_headers (<[toUpperCase (name header) := value header]> (headers this)) this)
          raw this in
      if has_property "CF-RAILGUN" (headers this) then processRailgunHeader this
      else Normal this
  end.

Definition new_Request (details : Details) : completion Request :=
  preProcessHeaders
    {| details := details;
       headersRaw := responseHeaders details;
       headers := ∅;
       hasSPDYStatus := false;
       railgunMetaData := None;
       SPDY := VUndefined |}.

(** *** The predicates and getters *)

Definition servedByCloudFlare (this : Request) : bool :=
  has_property "SERVER" (headers this)
  && strict_equal_string (property (headers this) "SERVER") "cloudflare-nginx".

Definition servedByRailgun (this : Request) : bool :=
  has_property "CF-RAILGUN" (headers this).

Definition servedOverSPDY (this : Request) : val := SPDY this.

Definition ServedFromBrowserCache (this : Request) : bool := fromCache (details this).

Definition getRayID (this : Request) : val := property (headers this) "CF-RAY".

Definition getTabID (this : Request) : Z := tabId (details this).

Definition getRequestURL (this : Request) : string := url (details this).

Definition getRailgunMetaData (this : Request) : option RailgunMetaData :=
  railgunMetaData this.

Definition getServerIP (this : Request) : val := ip (details this).

Definition isv6IP (this : Request) : completion bool :=
  i ← call_indexOf (getServerIP this) ":";
  Normal (negb (i =? -1)).

(** The body of [getPageActionPath] up to the last line: the array
    [iconPathParts]. *)
Definition iconPathParts (this : Request) : completion (list string) :=
  let parts : list string :=
    if servedByCloudFlare this then ["on"] else ["off"] in
  let parts :=
    if ToBoolean (servedOverSPDY this) then (parts ++ ["spdy"])%list else parts in
  v6 ← isv6IP this;
  let parts := if v6 : bool then (parts ++ ["ipv6"])%list else parts in
  let parts := if servedByRailgun this then (parts ++ ["rg"])%list else parts in
  Normal parts.

Definition getPageActionPath (this : Request) : completion string :=
  let iconPath := "images/claire-3-" in
  parts ← iconPathParts this;
  Normal (iconPath +:+ join "-" parts +:+ ".png").

(** ** The world: heap, registry, host *)

(** An argument of [console.log]. *)
Inductive LogArg : Type :=
| LStr (s : string)
| LVal (v : val)
| LNum (z : Z)
| LDetails (d : Details)
| LExn (e : exn).

(** The calls the program makes on the host, in the order made. *)
Inductive Event : Type :=
| console_log (args : list LogArg)
| tabs_sendMessage (tab : Z) (action : string)
| pageAction_setIcon (tab : Z) (path : string)
| pageAction_setPopup (tab : Z) (popup : string)
| pageAction_show (tab : Z)
| sendResponse_empty.

(** What the host decides: whether a call it receives raises, and how the
    call expression [chrome.extension.lastError()] completes. *)
Record Host : Type := {
  sendMessage_throws : Z → bool;
  setPopup_throws : Z → bool;
  show_throws : Z → bool;
  lastError_call : completion val;
}.

Record World : Type := {
  heap : list Request;            (* the Request objects, by location *)
  requests : gmap Z nat;          (* var requests = {} *)
  debug_logging : option string;  (* localStorage.getItem('debug_logging') *)
  host : Host;
  trace : list Event;
}.

Definition set_heap (h : list Request) (w : World) : World :=
  {| heap := h; requests := requests w; debug_logging := debug_logging w;
     host := host w; trace := trace w |}.

Definition set_requests (m : gmap Z nat) (w : World) : World :=
  {| heap := heap w; requests := m; debug_logging := debug_logging w;
     host := host w; trace := trace w |}.

Definition set_trace (t : list Event) (w : World) : World :=
  {| heap := heap w; requests := requests w; debug_logging := debug_logging w;
     host := host w; trace := t |}.

(** Computations: a world transformer that completes normally or throws;
    what was done before a throw stays done. *)
Definition M (A : Type) : Type := World → World * completion A.

#[global] Instance M_ret : MRet M := fun A a w => (w, Normal a).
#[global] Instance M_bind : MBind M := fun A B f m w =>
  match m w with
  | (w', Normal a) => f a w'
  | (w', Throw e) => (w', Throw e)
  end.

Definition throw {A} (e : exn) : M A := fun w => (w, Throw e).

Definition lift {A} (c : completion A) : M A := fun w => (w, c).

Definition try_catch {A} (body : M A) (handler : exn → M A) : M A := fun w =>
  match body w with
  | (w', Throw e) => handler e w'
  | r => r
  end.

Definition get_world : M World := fun w => (w, Normal w).

Definition emit (e : Event) : M unit := fun w =>
  (set_trace (trace w ++ [e]) w, Normal tt).

Definition alloc (r : Request) : M nat := fun w =>
  (set_heap (heap w ++ [r]) w, Normal (length (heap w))).

Definition load (l : nat) : M Request := fun w =>
  match heap w !! l with
  | Some r => (w, Normal r)
  | None => (w, Throw Dangling)
  end.

Definition store (l : nat) (f : Request → Request) : M unit := fun w =>
  (set_heap (alter f l (heap w)) w, Normal tt).

Definition update_requests (f : gmap Z nat → gmap Z nat) : M unit := fun w =>
  (set_requests (f (requests w)) w, Normal tt).

(** A call on the host that the host may refuse by raising. *)
Definition host_call (throws : Host → Z → bool) (tab : Z) (e : Event) : M unit :=
  w ← get_world;
  if throws (host w) tab then throw HostError else emit e.

(** ** The methods that act on the world *)

Definition setSPDYStatus (this : nat) (status : val) : M unit :=
  store this (set_hasSPDYStatus true);;
  store this (set_SPDY status).

(** The function passed to [chrome.pageAction.setIcon], which the host
    calls once the icon is set. *)
Definition setIcon_callback (tabID : Z) : M unit :=
  try_catch
    (host_call setPopup_throws tabID
       (pageAction_setPopup tabID "page_action_popup.html");;
     host_call show_throws tabID (pageAction_show tabID))
    (fun e =>
       emit (console_log
               [LStr "Exception on page action show for tab with ID: ";
                LNum tabID; LExn e])).

Definition setPageActionIconAndPopup (this : nat) : M unit :=
  r ← load this;
  iconPath ← lift (getPageActionPath r);
  emit (pageAction_setIcon (tabId (details r)) iconPath).

(** The reply of the content script: undefined ([None]) or an object
    with a [spdy] property. *)
Record Message : Type := { spdy : val }.

(** [cs_message_callback], closed over [tabID]. *)
Definition cs_message_callback (tabID : Z) (cs_msg_response : option Message)
  : M unit :=
  match cs_msg_response with
  | None => mret tt
  | Some response =>
      w ← get_world;
      match requests w !! tabID with
      | None => throw TypeError
      | Some request =>
          store request (set_SPDY (spdy response));;
          setPageActionIconAndPopup request
      end
  end.

Definition querySPDYStatusAndSetIcon (this : nat) : M unit :=
  r ← load this;
  let tabID := tabId (details r) in
  if hasSPDYStatus r then setPageActionIconAndPopup this
  else
    try_catch
      (host_call sendMessage_throws tabID
         (tabs_sendMessage tabID "check_spdy_status"))
      (fun e =>
         emit (console_log
                 [LStr "caught exception when sending message to content script"]);;
         w ← get_world;
         v ← lift (lastError_call (host w));
         emit (console_log [LVal v]);;
         emit (console_log [LExn e])).

Definition newline : string := String (ascii_of_N 10) EmptyString.

Definition logToConsole (this : nat) : M unit :=
  w ← get_world;
  if negb (bool_decide (debug_logging w = Some "yes")) then mret tt
  else
    r ← load this;
    emit (console_log [LStr newline]);;
    emit (console_log
            [LStr (url (details r)); LVal (ip (details r));
             LStr (add_string (VStr "CF - ") (ToString (VBool (servedByCloudFlare r))))]);;
    emit (console_log [LStr "Request - "; LDetails (details r)]);;
    (if servedByCloudFlare r
     then emit (console_log [LStr "Ray ID - "; LVal (getRayID r)])
     else mret tt);;
    if servedByRailgun r then
      match getRailgunMetaData r with
      | None => throw TypeError
      | Some md =>
          match rg_messages md with
          | None => throw TypeError
          | Some messages =>
              emit (console_log
                      [LStr "Railgun - "; LVal (default VUndefined (rg_id md));
                       LStr (join "; " messages)])
          end
      end
    else mret tt.

(** ** The listeners *)

Definition processCompletedRequest (details : Details) : M unit :=
  r ← lift (new_Request details);
  request ← alloc r;
  update_requests (insert (tabId details) request);;
  logToConsole request.

Definition onReplaced (addedTabId removedTabId : Z) : M unit :=
  w ← get_world;
  if has_property removedTabId (requests w) then
    update_requests (fun m =>
      match m !! removedTabId with
      | Some request => <[addedTabId := request]> m
      | None => m
      end);;
    update_requests (delete removedTabId)
  else
    emit (console_log
            [LStr "could not find an entry in requests for "; LNum removedTabId]).

(** The details of a DOM-content-loaded event. *)
Record NavigationDetails : Type := {
  nav_tabId : Z;
  frameId : Z;
}.

Definition onDOMContentLoaded (details : NavigationDetails) : M unit :=
  if frameId details >? 0 then mret tt
  else
    w ← get_world;
    match requests w !! nav_tabId details with
    | Some request => querySPDYStatusAndSetIcon request
    | None => mret tt
    end.

(** The sender of a message; [tab] is present when a content script sent
    it. *)
Record MessageSender : Type := { tab_id : option Z }.

(** A property of a Request that holds a primitive value, by name; any
    other name that is neither an object-valued property ([details],
    [headersRaw], [headers], [railgunMetaData]) nor a method of the
    prototype is not defined, and reads as undefined. *)
Definition Request_property (r : Request) (P : string) : val :=
  if String.eqb P "hasSPDYStatus" then VBool (hasSPDYStatus r)
  else if String.eqb P "SPDY" then SPDY r
  else VUndefined.

(** The message listener.  Its first parameter is [request]; the first
    statement, [var request = requests[sender.tab.id]], assigns to that
    same binding, so [request.spdy] below reads the registry's record. *)
Definition onMessage (message : Message) (sender : MessageSender) : M unit :=
  match tab_id sender with
  | None => throw TypeError
  | Some id =>
      w ← get_world;
      match requests w !! id with
      | Some request =>
          r ← load request;
          setSPDYStatus request (Request_property r "spdy")
      | None => mret tt
      end;;
      emit sendResponse_empty
  end.

Definition onRemoved (tabId : Z) : M unit :=
  update_requests (delete tabId).

(** * What the properties are stated with *)

(** [needle] occurs in [s]. *)
Definition contains (s needle : string) : Prop :=
  ∃ pre post, s = pre +:+ needle +:+ post.

(** The flags of the table, in its order. *)
Definition flags_in_order : list Flag := map snd railgunFlags.

(** An integer wrapped into [-2^31, 2^31), as a mathematical function. *)
Definition wrap32 (n : Z) : Z :=
  let int32bit := n mod 2 ^ 32 in
  if 2 ^ 31 <=? int32bit then int32bit - 2 ^ 32 else int32bit.

(** A request as the constructor leaves it before decoding, with the one
    header CF-RAILGUN. *)
Definition railgun_request (raw : val) : Request :=
  {| details :=
       {| tabId := 1; url := "https://example.com/"; ip := VStr "192.0.2.1";
          fromCache := false;
          responseHeaders := Some [ {| name := "CF-Railgun"; value := raw |} ] |};
     headersRaw := Some [ {| name := "CF-Railgun"; value := raw |} ];
     headers := {[ "CF-RAILGUN" := raw ]};
     hasSPDYStatus := false;
     railgunMetaData := None;
     SPDY := VUndefined |}.


(** The icon variant as the specification words it: "on" or "off", then
    "spdy", "ipv6" and "rg", each if its condition holds, joined by dashes. *)
Definition spec_icon_variant (edge transport ipv6 accelerator : bool) : string :=
  join "-"
    ((if edge then ["on"] else ["off"])
     ++ (if transport then ["spdy"] else [])
     ++ (if ipv6 then ["ipv6"] else [])
     ++ (if accelerator then ["rg"] else []))%list.

(** The server ip is a string with a colon in it. *)
Definition ip_has_colon (v : val) : bool :=
  match v with
  | VStr s => negb (indexOf s ":" =? -1)
  | _ => false
  end.

(** A request completed without a server ip, by a server that is not the
    known edge provider. *)
Definition details_without_ip : Details :=
  {| tabId := 1; url := "https://example.com/"; ip := VUndefined;
     fromCache := true;
     responseHeaders := Some [ {| name := "Server"; value := VStr "nginx" |} ] |}.

Definition request_without_ip : Request :=
  {| details := details_without_ip;
     headersRaw := responseHeaders details_without_ip;
     headers := {[ "SERVER" := VStr "nginx" ]};
     hasSPDYStatus := false;
     railgunMetaData := None;
     SPDY := VUndefined |}.

(** A request with no feature: a plain server, an IPv4 address. *)
Definition request_no_features : Request :=
  {| details :=
       {| tabId := 1; url := "https://example.com/"; ip := VStr "192.0.2.1";
          fromCache := false;
          responseHeaders := Some [ {| name := "Server"; value := VStr "nginx" |} ] |};
     headersRaw := Some [ {| name := "Server"; value := VStr "nginx" |} ];
     headers := {[ "SERVER" := VStr "nginx" ]};
     hasSPDYStatus := false;
     railgunMetaData := None;
     SPDY := VUndefined |}.

(** A request with every feature. *)
Definition request_all_features : Request :=
  {| details :=
       {| tabId := 1; url := "https://example.com/"; ip := VStr "2001:db8::1";
          fromCache := false; responseHeaders := Some [] |};
     headersRaw := Some [];
     headers := {[ "SERVER" := VStr "cloudflare-nginx";
                   "CF-RAILGUN" := VStr "direct 0 x v1 normal" ]};
     hasSPDYStatus := true;
     railgunMetaData := None;
     SPDY := VBool true |}.

(** The host of the examples accepts every call. *)
Definition accepting_host : Host :=
  {| sendMessage_throws := fun _ => false;
     setPopup_throws := fun _ => false;
     show_throws := fun _ => false;
     lastError_call := Normal VUndefined |}.

(** The world when the background page starts. *)
Definition initial_world : World :=
  {| heap := []; requests := ∅; debug_logging := None;
     host := accepting_host; trace := [] |}.

(** Completion details of a request for tab 1. *)
Definition details_tab1 : Details :=
  {| tabId := 1; url := "https://example.com/"; ip := VStr "192.0.2.1";
     fromCache := false;
     responseHeaders := Some [ {| name := "Server"; value := VStr "cloudflare-nginx" |} ] |}.

(** A world in which tab 1 has a record: the initial world after the
    request of [details_tab1] completed. *)
(** The record the constructor makes of them. *)
Definition request_tab1 : Request :=
  {| details := details_tab1;
     headersRaw := responseHeaders details_tab1;
     headers := {[ "SERVER" := VStr "cloudflare-nginx" ]};
     hasSPDYStatus := false;
     railgunMetaData := None;
     SPDY := VUndefined |}.

Definition world_tracking_tab1 : World :=
  fst (processCompletedRequest details_tab1 initial_world).

(** Every location in the registry is a location of the heap. *)
Definition registry_in_heap (w : World) : Prop :=
  ∀ t l, requests w !! t = Some l → (l < length (heap w))%nat.

(** A computation that leaves the registry and the size of the heap as
    they are. *)
Definition keeps_store {A} (m : M A) : Prop :=
  ∀ w, requests (fst (m w)) = requests w
       ∧ length (heap (fst (m w))) = length (heap w).

(** The value of the last header of the list whose upper-cased name is
    [key]. *)
Fixpoint last_header_value (key : string) (hs : list HttpHeader) : option val :=
  match hs with
  | [] => None
  | h :: hs' =>
      match last_header_value key hs' with
      | Some v => Some v
      | None =>
          if String.eqb (toUpperCase (name h)) key then Some (value h) else None
      end
  end.

(** No two tab ids share a record. *)
Definition registry_injective (w : World) : Prop :=
  ∀ t1 t2 l, requests w !! t1 = Some l → requests w !! t2 = Some l → t1 = t2.

(** What a record captured when it was made is the same in [r'] as in [r],
    and a status that was known is still known. *)
Definition same_capture (r r' : Request) : Prop :=
  details r' = details r
  ∧ headersRaw r' = headersRaw r
  ∧ headers r' = headers r
  ∧ railgunMetaData r' = railgunMetaData r
  ∧ (hasSPDYStatus r = true → hasSPDYStatus r' = true).

(** Every object of [h] is still in [h'], at its location, with what it
    captured. *)
Definition heap_evolves (h h' : list Request) : Prop :=
  ∀ l r, h !! l = Some r → ∃ r', h' !! l = Some r' ∧ same_capture r r'.

(** A computation that does nothing but call the host: heap, registry,
    preference and host stay, the trace grows. *)
Definition only_emits {A} (m : M A) : Prop :=
  ∀ w, heap (fst (m w)) = heap w
       ∧ requests (fst (m w)) = requests w
       ∧ debug_logging (fst (m w)) = debug_logging w
       ∧ host (fst (m w)) = host w
       ∧ ∃ events, trace (fst (m w)) = (trace w ++ events)%list.

(** What the host delivers to the background page: the five events the
    listeners are registered for, the reply to a query and the completion
    of [setIcon]. *)
Inductive Input : Type :=
| RequestCompleted (d : Details)
| TabReplaced (addedTabId removedTabId : Z)
| TabRemoved (tabId : Z)
| DOMContentLoaded (d : NavigationDetails)
| MessageReceived (message : Message) (sender : MessageSender)
| QueryReplied (tabID : Z) (cs_msg_response : option Message)
| IconSet (tabID : Z).

Definition deliver (i : Input) : M unit :=
  match i with
  | RequestCompleted d => processCompletedRequest d
  | TabReplaced addedTabId removedTabId => onReplaced addedTabId removedTabId
  | TabRemoved tabId => onRemoved tabId
  | DOMContentLoaded d => onDOMContentLoaded d
  | MessageReceived message sender => onMessage message sender
  | QueryReplied tabID cs_msg_response => cs_message_callback tabID cs_msg_response
  | IconSet tabID => setIcon_callback tabID
  end.

(** The world after a sequence of deliveries; a handler that throws ends,
    and the next delivery starts from the world it left. *)
Fixpoint run_inputs (inputs : list Input) (w : World) : World :=
  match inputs with
  | [] => w
  | i :: rest => run_inputs rest (fst (deliver i w))
  end.

(** Details with the same header twice, in different case. *)
Definition details_two_servers : Details :=
  {| tabId := 1; url := "https://example.com/"; ip := VStr "192.0.2.1";
     fromCache := false;
     responseHeaders :=
       Some [ {| name := "Server"; value := VStr "cloudflare-nginx" |};
              {| name := "SERVER"; value := VStr "nginx" |};
              {| name := "cf-ray"; value := VStr "1a2b3c-LHR" |} ] |}.

(** Details of a request whose CF-RAILGUN header is not text. *)
Definition details_binary_railgun : Details :=
  {| tabId := 1; url := "https://example.com/"; ip := VStr "192.0.2.1";
     fromCache := false;
     responseHeaders := Some [ {| name := "CF-Railgun"; value := VUndefined |} ] |}.

(** Details of a request that carry no header list. *)
Definition details_without_headers : Details :=
  {| tabId := 1; url := "file:///tmp/page.html"; ip := VUndefined;
     fromCache := false; responseHeaders := None |}.

(** The initial world with debug logging switched on. *)
Definition debug_world : World :=
  {| heap := []; requests := ∅; debug_logging := Some "yes";
     host := accepting_host; trace := [] |}.

(** A host that refuses every call. *)
Definition refusing_host : Host :=
  {| sendMessage_throws := fun _ => true;
     setPopup_throws := fun _ => true;
     show_throws := fun _ => true;
     lastError_call := Throw TypeError |}.

(** [world_tracking_tab1] on the refusing host. *)
Definition refused_world : World :=
  {| heap := heap world_tracking_tab1; requests := requests world_tracking_tab1;
     debug_logging := None; host := refusing_host; trace := [] |}.

(** Later details for tab 1, from an IPv6 server. *)
Definition details_tab1_later : Details :=
  {| tabId := 1; url := "https://example.org/"; ip := VStr "2001:db8::2";
     fromCache := false;
     responseHeaders := Some [ {| name := "Server"; value := VStr "nginx" |} ] |}.

(** The messages of all seven flags, in the order of the table. *)
Definition all_messages : list string := map message flags_in_order.

(** A computation under which the heap only evolves. *)
Definition evolving {A} (m : M A) : Prop :=
  ∀ w, heap_evolves (heap w) (heap (fst (m w))).

(** A sequence of deliveries: a request completes for tab 1, the page
    loads and answers the query, the icon is set, the tab is replaced by
    tab 2, a request without a header list and then another request complete
    for tab 1, a message arrives from tab 1, and tab 1 is closed. *)
Definition example_inputs : list Input :=
  [ RequestCompleted details_tab1;
    DOMContentLoaded {| nav_tabId := 1; frameId := 0 |};
    QueryReplied 1 (Some {| spdy := VBool true |});
    IconSet 1;
    TabReplaced 2 1;
    RequestCompleted details_without_headers;
    RequestCompleted details_tab1_later;
    MessageReceived {| spdy := VBool false |} {| tab_id := Some 1 |};
    TabRemoved 1 ].


(** The text is ASCII, as the field names of HTTP headers are. *)
Fixpoint ascii_only (s : string) : bool :=
  match s with
  | EmptyString => true
  | String c r => (code c <? 128) && ascii_only r
  end.

(** * Properties *)

(** Unfolding the monad of computations. *)
Ltac run :=
  unfold mbind, M_bind, mret, M_ret, lift, emit, throw, get_world, load, store,
    alloc, update_requests, try_catch, host_call;
  cbn [fst snd heap requests debug_logging host trace set_heap set_requests set_trace].


(** ** Substrings and [indexOf] *)

Lemma append_cons (c : ascii) (s t : string) :
  String c s +:+ t = String c (s +:+ t).
Proof. reflexivity. Qed.

Lemma append_empty (t : string) : EmptyString +:+ t = t.
Proof. reflexivity. Qed.

Lemma prefix_spec (needle s : string) :
  String.prefix needle s = true ↔ ∃ post, s = needle +:+ post.
Proof.
  revert s. induction needle as [|a needle IH]; intros s; simpl.
  - split; [intros _; by exists s | by destruct s].
  - destruct s as [|b s]; simpl.
    + split; [done | by intros [post ?]].
    + destruct (ascii_dec a b) as [->|Hne].
      * rewrite IH. split; intros [post Hpost]; exists post;
          rewrite append_cons in *; congruence.
      * split; [done | intros [post Hpost]; rewrite append_cons in Hpost; congruence].
Qed.

Lemma contains_here (needle s : string) :
  String.prefix needle s = true → contains s needle.
Proof.
  intros [post ->]%prefix_spec. by exists EmptyString, post.
Qed.

Lemma contains_later (c : ascii) (needle s : string) :
  contains s needle → contains (String c s) needle.
Proof.
  intros (pre & post & ->). by exists (String c pre), post.
Qed.

Lemma contains_cons_inv (c : ascii) (needle s : string) :
  contains (String c s) needle →
  String.prefix needle (String c s) = true ∨ contains s needle.
Proof.
  intros (pre & post & Heq). destruct pre as [|c' pre].
  - left. apply prefix_spec. by exists post.
  - right. rewrite append_cons in Heq. injection Heq as _ ->. by exists pre, post.
Qed.

Lemma contains_empty_inv (needle : string) :
  contains EmptyString needle → String.prefix needle EmptyString = true.
Proof.
  intros (pre & post & Heq). destruct pre; [|done].
  destruct needle; [done | discriminate].
Qed.

Lemma indexOf_from_spec (needle s : string) (i : Z) :
  0 ≤ i →
  (indexOf_from i s needle = -1 ∧ ¬ contains s needle)
  ∨ (i ≤ indexOf_from i s needle ∧ contains s needle).
Proof.
  revert i. induction s as [|c s IH]; intros i Hi; cbn [indexOf_from].
  - destruct (String.prefix needle EmptyString) eqn:Hp.
    + right. split; [lia | by apply contains_here].
    + left. split; [done|]. intros H%contains_empty_inv. congruence.
  - destruct (String.prefix needle (String c s)) eqn:Hp.
    + right. split; [lia | by apply contains_here].
    + destruct (IH (i + 1)) as [[-> Hno]|[Hle Hyes]]; [lia | |].
      * left. split; [done|]. intros [H|H]%contains_cons_inv; [congruence | done].
      * right. split; [lia | by apply contains_later].
Qed.

(** [s.indexOf(needle) !== -1] says that [needle] occurs in [s]. *)
Lemma indexOf_contains (s needle : string) :
  negb (indexOf s needle =? -1) = true ↔ contains s needle.
Proof.
  unfold indexOf. destruct (indexOf_from_spec needle s 0) as [[-> Hno]|[Hle Hyes]];
    [lia | | ].
  - simpl. split; [done | intros; tauto].
  - split; [done | intros _]. apply negb_true_iff, Z.eqb_neq. lia.
Qed.

Lemma indexOf_not_contains (s needle : string) :
  negb (indexOf s needle =? -1) = false ↔ ¬ contains s needle.
Proof.
  rewrite <- indexOf_contains. destruct (negb _); split; congruence.
Qed.

(** [split] always yields a first token. *)
Lemma split_first (sep : ascii) (s : string) :
  ∃ t ts, split sep s = t :: ts.
Proof.
  induction s as [|c s (t & ts & IH)]; simpl; [by eexists _, _|].
  destruct (Ascii.eqb c sep); [by eexists _, _|].
  rewrite IH. by eexists _, _.
Qed.

(** ** The header decoder *)

Section Decoder.

Variable this : Request.
Variable raw : string.
Hypothesis Hraw : property (headers this) "CF-RAILGUN" = VStr raw.

Let tokens : list string := split " " raw.

(** The metadata stored for a header in the format with "normal". *)
Lemma processRailgunHeader_normal :
  contains raw "normal" →
  processRailgunHeader this =
  Normal (set_railgunMetaData
            {| rg_normal := Some true;
               rg_id := Some (element tokens 0);
               rg_version := Some (element tokens 3);
               rg_compression := None;
               rg_time := None;
               rg_flags := Some (parseInt (element tokens 1));
               rg_messages := Some (decode_flags (parseInt (element tokens 1))) |}
            this).
Proof using Hraw.
  intros Hn%indexOf_contains. unfold processRailgunHeader.
  rewrite Hraw. cbn. by rewrite Hn.
Qed.

(** The metadata stored for a header in the other format. *)
Lemma processRailgunHeader_other :
  ¬ contains raw "normal" →
  processRailgunHeader this =
  Normal (set_railgunMetaData
            {| rg_normal := Some false;
               rg_id := Some (element tokens 0);
               rg_version := Some (element tokens 4);
               rg_compression :=
                 Some (Number.toString
                         (Number.sub (Number.of_Z 100) (ToNumber (element tokens 1)))
                       +:+ "%");
               rg_time := Some (ToString (element tokens 2) +:+ "sec");
               rg_flags := Some (parseInt (element tokens 3));
               rg_messages := Some (decode_flags (parseInt (element tokens 3))) |}
            this).
Proof using Hraw.
  intros Hn%indexOf_not_contains. unfold processRailgunHeader.
  rewrite Hraw. cbn. by rewrite Hn.
Qed.

End Decoder.

(** ** Flag expansion *)

Lemma fold_left_push {A B C} (P : B → bool) (g : B → C) (l : list (A * B))
    (acc : list C) :
  fold_left
    (fun messages entry =>
       if P (snd entry) then (messages ++ [g (snd entry)])%list else messages)
    l acc
  = (acc ++ map g (List.filter P (map snd l)))%list.
Proof.
  revert acc. induction l as [|e l IH]; intros acc; simpl.
  - by rewrite app_nil_r.
  - rewrite IH. destruct (P (snd e)); simpl; [|done].
    by rewrite <- app_assoc.
Qed.

Lemma decode_flags_filter (bitset : number) :
  decode_flags bitset = map message (List.filter (flag_set bitset) flags_in_order).
Proof. unfold decode_flags. by rewrite fold_left_push. Qed.

Lemma NoDup_map_inj {A B} (g : A → B) (l : list A) (x y : A) :
  NoDup (map g l) → In x l → In y l → g x = g y → x = y.
Proof.
  induction l as [|a l IH]; simpl; [done|].
  intros [Hnotin Hnd]%NoDup_cons [->|Hx] [->|Hy] Heq; try done.
  - exfalso. apply Hnotin. rewrite Heq. apply list_elem_of_In, in_map, Hy.
  - exfalso. apply Hnotin. rewrite <- Heq. apply list_elem_of_In, in_map, Hx.
  - by apply IH.
Qed.

Lemma in_map_filter {A B} (g : A → B) (P : A → bool) (l : list A) (x : A) :
  NoDup (map g l) → In x l →
  In (g x) (map g (List.filter P l)) ↔ P x = true.
Proof.
  intros Hnd Hx. split.
  - intros (y & Heq & [Hy HP]%filter_In)%in_map_iff.
    by rewrite <- (NoDup_map_inj g l y x Hnd Hy Hx Heq).
  - intros HP. apply in_map, filter_In. by split.
Qed.

Lemma messages_NoDup : NoDup (map message flags_in_order).
Proof. compute_done. Qed.

Lemma flag_set_true (bitset : number) (f : Flag) :
  flag_set bitset f = true ↔ Number.bitand bitset (Number.of_Z (position f)) ≠ 0.
Proof. unfold flag_set. rewrite negb_true_iff, Z.eqb_neq. done. Qed.

Lemma message_listed_iff (bitset : number) (f : Flag) :
  In f flags_in_order →
  In (message f) (decode_flags bitset)
  ↔ Number.bitand bitset (Number.of_Z (position f)) ≠ 0.
Proof.
  intros Hf. rewrite decode_flags_filter, <- flag_set_true.
  by apply in_map_filter; [apply messages_NoDup|].
Qed.

(** *** Integer bitsets

    A bitset below 2^53 in magnitude is represented exactly, and on it
    [&] with a flag's bit is the bitwise and of the integers. *)

Lemma digits2_pos_log2 (m : positive) :
  Z.pos (digits2_pos m) = Z.log2 (Z.pos m) + 1.
Proof.
  induction m as [m IH|m IH|]; simpl; [| |done].
  - destruct m; simpl in *; lia.
  - destruct m; simpl in *; lia.
Qed.

Lemma digits2_pos_bound (m : positive) (n : Z) :
  0 < n → Z.pos m < 2 ^ n → Z.pos (digits2_pos m) ≤ n.
Proof.
  intros Hn Hm. rewrite digits2_pos_log2.
  apply Z.log2_lt_pow2 in Hm; lia.
Qed.

Lemma iter_xO_spec (m k : positive) :
  Z.pos (Pos.iter xO m k) = Z.pos m * 2 ^ Z.pos k
  ∧ Z.pos (digits2_pos (Pos.iter xO m k)) = Z.pos (digits2_pos m) + Z.pos k.
Proof.
  induction k as [|k [IH1 IH2]] using Pos.peano_ind.
  - simpl. split; lia.
  - rewrite Pos.iter_succ. cbn [digits2_pos].
    rewrite Pos2Z.inj_succ, Z.pow_succ_r by lia. split; lia.
Qed.

Lemma binary_round_aux_exact (sx : bool) (mz : positive) (ez : Z) :
  Z.pos (digits2_pos mz) = 53 → -1074 ≤ ez ≤ 971 →
  binary_round_aux prec emax sx (Z.pos mz) ez loc_Exact = S754_finite sx mz ez.
Proof.
  intros Hd He. unfold binary_round_aux, shr_fexp, fexp, emin, Zdigits2, prec, emax.
  rewrite Hd.
  replace (Z.max (53 + ez - 53) (3 - 1024 - 53) - ez) with 0 by lia.
  cbn [shr shr_record_of_loc shr_m loc_of_shr_record round_nearest_even].
  unfold Zdigits2. rewrite Hd.
  replace (Z.max (53 + ez - 53) (3 - 1024 - 53) - ez) with 0 by lia.
  cbn [shr shr_record_of_loc shr_m].
  by rewrite (proj2 (Z.leb_le _ _)) by lia.
Qed.

Lemma truncate_of_Z (z : Z) : Z.abs z < 2 ^ 53 → Number.truncate (Number.of_Z z) = z.
Proof.
  intros Hz. destruct z as [|m|m]; [done| |].
  all: unfold Number.of_Z, binary_normalize, binary_round, shl_align, fexp, emin,
         prec, emax.
  all: pose proof (digits2_pos_bound m 53 ltac:(lia) ltac:(lia)) as Hd.
  all: pose proof (Pos2Z.is_pos (digits2_pos m)) as Hd0.
  all: replace (Z.max (Z.pos (digits2_pos m) + 0 - 53) (3 - 1024 - 53) - 0)
         with (Z.pos (digits2_pos m) - 53) by lia.
  all: replace (Z.max (Z.pos (digits2_pos m) + 0 - 53) (3 - 1024 - 53))
         with (Z.pos (digits2_pos m) - 53) by lia.
  all: destruct (Z.pos (digits2_pos m) - 53) as [|k|k] eqn:Hk; [| lia |].
  all: try (rewrite binary_round_aux_exact by lia; cbn; lia).
  all: destruct (iter_xO_spec m k) as [Hv Hdig].
  all: rewrite binary_round_aux_exact by lia.
  all: unfold Number.truncate; cbn [Z.leb Z.compare Z.opp];
         rewrite Hv, Z.div_mul by lia; done.
Qed.

(** The text of a non-zero integer, parsed, is the Number of that integer. *)
Lemma of_decimal_integer (neg : bool) (d : Z) :
  0 < d → Number.of_decimal neg d 0 = Number.of_Z (if neg then - d else d).
Proof.
  intros Hd. destruct d as [|p|p]; [lia| |lia].
  unfold Number.of_decimal, Number.of_Z. cbn [Z.leb Z.compare Z.pow Z.to_pos].
  rewrite Pos.mul_1_r. by destruct neg.
Qed.

Lemma ToInt32_wrap (x : number) : Number.ToInt32 x = wrap32 (Number.truncate x).
Proof. by destruct x. Qed.

Lemma wrap32_mod (n : Z) : wrap32 n mod 2 ^ 32 = n mod 2 ^ 32.
Proof.
  unfold wrap32. destruct (2 ^ 31 <=? n mod 2 ^ 32).
  - replace (n mod 2 ^ 32 - 2 ^ 32) with (n mod 2 ^ 32 + (-1) * 2 ^ 32) by lia.
    by rewrite Z.mod_add, Z.mod_mod.
  - by rewrite Z.mod_mod.
Qed.

Lemma wrap32_small (p : Z) : 0 ≤ p < 2 ^ 31 → wrap32 p = p.
Proof.
  intros Hp. unfold wrap32. rewrite Z.mod_small by lia.
  by rewrite (proj2 (Z.leb_gt _ _)) by lia.
Qed.

Lemma land_wrap32 (n p : Z) : 0 ≤ p < 2 ^ 31 → Z.land (wrap32 n) p = Z.land n p.
Proof.
  intros Hp. apply Z.bits_inj'. intros i Hi. rewrite !Z.land_spec.
  destruct (Z.lt_ge_cases i 32) as [Hlt|Hge].
  - f_equal. rewrite <- (Z.mod_pow2_bits_low (wrap32 n) 32 i) by lia.
    rewrite wrap32_mod. apply Z.mod_pow2_bits_low. lia.
  - assert (Z.testbit p i = false) as ->; [|by rewrite !andb_false_r].
    destruct (Z.eq_dec p 0) as [->|Hp0]; [apply Z.bits_0|].
    apply Z.bits_above_log2; [lia|].
    assert (Z.log2 p < 31) by (apply Z.log2_lt_pow2; lia). lia.
Qed.

Lemma bitand_of_Z (z p : Z) :
  Z.abs z < 2 ^ 53 → 0 ≤ p < 2 ^ 31 →
  Number.bitand (Number.of_Z z) (Number.of_Z p) = Z.land z p.
Proof.
  intros Hz Hp. unfold Number.bitand. rewrite !ToInt32_wrap.
  rewrite !truncate_of_Z by lia.
  by rewrite (wrap32_small p), land_wrap32.
Qed.

Lemma positions_small : Forall (fun f => 0 ≤ position f < 2 ^ 31) flags_in_order.
Proof. repeat constructor; cbn; lia. Qed.

(** For an integer bitset a message is listed iff its bit is set. *)
Lemma message_listed_integer (z : Z) (f : Flag) :
  Z.abs z < 2 ^ 53 →
  In f flags_in_order →
  In (message f) (decode_flags (Number.of_Z z)) ↔ Z.land z (position f) ≠ 0.
Proof.
  intros Hz Hf. rewrite message_listed_iff by done.
  rewrite bitand_of_Z; [done | done |].
  by apply (proj1 (Forall_forall _ _) positions_small), list_elem_of_In.
Qed.

(** Whatever the header, [processRailgunHeader] completes normally, and
    the messages it stores are the expansion of the bitset it stores. *)
Lemma processRailgunHeader_messages (this : Request) :
  ∃ md, processRailgunHeader this = Normal (set_railgunMetaData md this)
        ∧ rg_messages md = decode_flags <$> rg_flags md.
Proof.
  destruct (property (headers this) "CF-RAILGUN") as [| |b|n|raw] eqn:Hraw;
    try (exists empty_metadata; unfold processRailgunHeader; by rewrite Hraw).
  destruct (negb (indexOf raw "normal" =? -1)) eqn:Hn.
  - apply indexOf_contains in Hn. eexists. split;
      [by apply processRailgunHeader_normal | done].
  - apply indexOf_not_contains in Hn. eexists. split;
      [by apply processRailgunHeader_other | done].
Qed.

(** C6.  For every flags bitset, the messages are those of the flags of the
    table whose bit is set, [(bitset & position) != 0], listed in the order
    of the table, which is by ascending bit from 0x01 to 0x40; for an
    integer bitset [&] is the bitwise and of the integers.  Bitset 0x05
    gives the two messages of bits 0x01 and 0x04 in that order, bitset 0
    gives none, and bitset 0x7F gives all seven in ascending-bit order.  The
    decoder stores this expansion of the bitset it stores. *)
Theorem flag_expansion :
  (∀ bitset : number,
     decode_flags bitset
     = map message (List.filter (flag_set bitset) flags_in_order)
     ∧ Forall
         (fun f =>
            In (message f) (decode_flags bitset)
            ↔ Number.bitand bitset (Number.of_Z (position f)) ≠ 0)
         flags_in_order)
  ∧ (∀ z : Z,
       Z.abs z < 2 ^ 53 →
       Forall
         (fun f =>
            In (message f) (decode_flags (Number.of_Z z))
            ↔ Z.land z (position f) ≠ 0)
         flags_in_order)
  ∧ map position flags_in_order = [0x01; 0x02; 0x04; 0x08; 0x10; 0x20; 0x40]
  ∧ decode_flags (Number.of_Z 0x05)
    = ["map.file used to change IP"; "Host name change"]
  ∧ decode_flags (Number.of_Z 0) = []
  ∧ decode_flags (Number.of_Z 0x7F)
    = ["map.file used to change IP"; "map.file default IP used";
       "Host name change"; "Existing connection reused";
       "Railgun sender sent dictionary"; "Dictionary found in memcache";
       "Restarted broken origin connection"]
  ∧ ∀ this : Request,
      ∃ md, processRailgunHeader this = Normal (set_railgunMetaData md this)
            ∧ rg_messages md = decode_flags <$> rg_flags md.
Proof.
  split.
  { intros bitset. split; [apply decode_flags_filter|].
    apply Forall_forall. intros f Hf. apply message_listed_iff.
    by apply list_elem_of_In. }
  split.
  { intros z Hz. apply Forall_forall. intros f Hf.
    apply message_listed_integer; [done|]. by apply list_elem_of_In. }
  split; [done|].
  split; [by vm_compute|].
  split; [by vm_compute|].
  split; [by vm_compute|].
  apply processRailgunHeader_messages.
Qed.

Lemma flag_expansion_witness :
  Forall
    (fun f =>
       In (message f) (decode_flags (Number.of_Z 0x05))
       ↔ Z.land 0x05 (position f) ≠ 0)
    flags_in_order.
Proof.
  destruct flag_expansion as (_ & Hinteger & _).
  apply (Hinteger 0x05). reflexivity.
Defined.

(** ** The two header formats *)

(** C4.  For every raw header string containing "normal", decoding
    completes normally and the record then holds railgun metadata in which
    normal is true, id is tokens[0], the flags bitset is
    parseInt(tokens[1], 10), version is tokens[3], messages is the expansion
    of that bitset, and compression and time are absent; the rest of the
    record is as before. *)
Theorem railgun_normal_format (this : Request) (raw : string) :
  property (headers this) "CF-RAILGUN" = VStr raw →
  contains raw "normal" →
  let tokens := split " " raw in
  ∃ this' md,
    processRailgunHeader this = Normal this'
    ∧ getRailgunMetaData this' = Some md
    ∧ rg_normal md = Some true
    ∧ rg_id md = Some (element tokens 0)
    ∧ rg_flags md = Some (parseInt (element tokens 1))
    ∧ rg_version md = Some (element tokens 3)
    ∧ rg_compression md = None
    ∧ rg_time md = None
    ∧ rg_messages md = Some (decode_flags (parseInt (element tokens 1)))
    ∧ headers this' = headers this
    ∧ details this' = details this
    ∧ hasSPDYStatus this' = hasSPDYStatus this
    ∧ SPDY this' = SPDY this.
Proof.
  intros Hraw Hn tokens. eexists _, _. split;
    [by apply processRailgunHeader_normal|].
  split; [reflexivity|]. done.
Qed.

Lemma railgun_normal_format_witness :
  ∃ this' md,
    processRailgunHeader (railgun_request (VStr "direct 5 x v1 normal"))
    = Normal this'
    ∧ getRailgunMetaData this' = Some md
    ∧ rg_normal md = Some true
    ∧ rg_id md = Some (VStr "direct")
    ∧ rg_flags md = Some (Number.of_Z 5)
    ∧ rg_version md = Some (VStr "v1")
    ∧ rg_compression md = None
    ∧ rg_time md = None
    ∧ rg_messages md = Some ["map.file used to change IP"; "Host name change"]
    ∧ headers this' = {[ "CF-RAILGUN" := VStr "direct 5 x v1 normal" ]}
    ∧ details this' = details (railgun_request (VStr "direct 5 x v1 normal"))
    ∧ hasSPDYStatus this' = false
    ∧ SPDY this' = VUndefined.
Proof.
  apply (railgun_normal_format
           (railgun_request (VStr "direct 5 x v1 normal")) "direct 5 x v1 normal").
  - reflexivity.
  - exists "direct 5 x v1 ", EmptyString. reflexivity.
Defined.

(** C5.  For every raw header string not containing "normal", decoding
    completes normally and the record then holds railgun metadata in which
    id is tokens[0], compression is (100 - tokens[1]) + "%", time is
    tokens[2] + "sec", the flags bitset is parseInt(tokens[3], 10), version
    is tokens[4] and messages is the expansion of that bitset; the rest of
    the record is as before. *)
Theorem railgun_other_format (this : Request) (raw : string) :
  property (headers this) "CF-RAILGUN" = VStr raw →
  ¬ contains raw "normal" →
  let tokens := split " " raw in
  ∃ this' md,
    processRailgunHeader this = Normal this'
    ∧ getRailgunMetaData this' = Some md
    ∧ rg_normal md = Some false
    ∧ rg_id md = Some (element tokens 0)
    ∧ rg_compression md
      = Some (Number.toString
                (Number.sub (Number.of_Z 100) (ToNumber (element tokens 1)))
              +:+ "%")
    ∧ rg_time md = Some (ToString (element tokens 2) +:+ "sec")
    ∧ rg_flags md = Some (parseInt (element tokens 3))
    ∧ rg_version md = Some (element tokens 4)
    ∧ rg_messages md = Some (decode_flags (parseInt (element tokens 3)))
    ∧ headers this' = headers this
    ∧ details this' = details this
    ∧ hasSPDYStatus this' = hasSPDYStatus this
    ∧ SPDY this' = SPDY this.
Proof.
  intros Hraw Hn tokens. eexists _, _. split;
    [by apply processRailgunHeader_other|].
  split; [reflexivity|]. done.
Qed.

Lemma railgun_other_format_witness :
  ∃ this' md,
    processRailgunHeader (railgun_request (VStr "e95b1c46e0 0.02 0.037872 0035 9878"))
    = Normal this'
    ∧ getRailgunMetaData this' = Some md
    ∧ rg_normal md = Some false
    ∧ rg_id md = Some (VStr "e95b1c46e0")
    ∧ rg_compression md = Some "99.98%"
    ∧ rg_time md = Some "0.037872sec"
    ∧ rg_flags md = Some (Number.of_Z 35)
    ∧ rg_version md = Some (VStr "9878")
    ∧ rg_messages md
      = Some ["map.file used to change IP"; "map.file default IP used";
              "Dictionary found in memcache"]
    ∧ headers this'
      = {[ "CF-RAILGUN" := VStr "e95b1c46e0 0.02 0.037872 0035 9878" ]}
    ∧ details this'
      = details (railgun_request (VStr "e95b1c46e0 0.02 0.037872 0035 9878"))
    ∧ hasSPDYStatus this' = false
    ∧ SPDY this' = VUndefined.
Proof.
  apply (railgun_other_format
           (railgun_request (VStr "e95b1c46e0 0.02 0.037872 0035 9878"))
           "e95b1c46e0 0.02 0.037872 0035 9878").
  - reflexivity.
  - apply indexOf_not_contains. reflexivity.
Defined.

(** ** When [parseInt] yields NaN *)












(** ** The constructor *)

Lemma fold_set_headers_fields (raw : list HttpHeader) (this : Request) :
  let this' :=
    fold_left
      (fun this header =>
         set_headers (<[toUpperCase (name header) := value header]> (headers this)) this)
      raw this in
  details this' = details this
  ∧ hasSPDYStatus this' = hasSPDYStatus this
  ∧ SPDY this' = SPDY this.
Proof.
  revert this. induction raw as [|h raw IH]; intros this; simpl; [done|].
  apply (IH (set_headers _ this)).
Qed.

(** With a header list in the details, the constructor completes normally
    and keeps the details; the record starts without a transport status. *)
Lemma new_Request_total (d : Details) (hs : list HttpHeader) :
  responseHeaders d = Some hs →
  ∃ r, new_Request d = Normal r
       ∧ details r = d ∧ hasSPDYStatus r = false ∧ SPDY r = VUndefined.
Proof.
  intros Hhs. unfold new_Request, preProcessHeaders. cbn [headersRaw]. rewrite Hhs.
  match goal with |- context [fold_left ?f hs ?r0] =>
    pose proof (fold_set_headers_fields hs r0) as (Hd & Hs & Hv);
    set (this := fold_left f hs r0) in *
  end.
  destruct (has_property "CF-RAILGUN" (headers this)).
  - destruct (processRailgunHeader_messages this) as (md & -> & _).
    eexists. split; [done|]. by cbn.
  - by exists this.
Qed.

(** Without a header list the constructor throws. *)
Lemma new_Request_no_headers (d : Details) :
  responseHeaders d = None → new_Request d = Throw TypeError.
Proof. intros Hhs. unfold new_Request, preProcessHeaders. cbn. by rewrite Hhs. Qed.

(** ** The icon variant *)

Lemma isv6IP_string (this : Request) (s : string) :
  getServerIP this = VStr s → isv6IP this = Normal (negb (indexOf s ":" =? -1)).
Proof. intros Hip. unfold isv6IP. by rewrite Hip. Qed.

Lemma isv6IP_not_string (this : Request) :
  (∀ s, getServerIP this ≠ VStr s) → isv6IP this = Throw TypeError.
Proof.
  intros Hip. unfold isv6IP. destruct (getServerIP this) as [| | | |s]; try done.
  by destruct (Hip s).
Qed.

Lemma getPageActionPath_string (this : Request) (s : string) :
  getServerIP this = VStr s →
  getPageActionPath this =
  Normal ("images/claire-3-"
          +:+ spec_icon_variant (servedByCloudFlare this)
                (ToBoolean (servedOverSPDY this))
                (negb (indexOf s ":" =? -1)) (servedByRailgun this)
          +:+ ".png").
Proof.
  intros Hip. unfold getPageActionPath, iconPathParts.
  rewrite (isv6IP_string this s Hip). cbn [mbind completion_bind].
  by destruct (servedByCloudFlare this), (ToBoolean (servedOverSPDY this)),
    (negb (indexOf s ":" =? -1)), (servedByRailgun this).
Qed.

Lemma getPageActionPath_not_string (this : Request) :
  (∀ s, getServerIP this ≠ VStr s) → getPageActionPath this = Throw TypeError.
Proof.
  intros Hip. unfold getPageActionPath, iconPathParts.
  by rewrite (isv6IP_not_string this Hip).
Qed.

Lemma servedByCloudFlare_true (this : Request) :
  servedByCloudFlare this = true
  ↔ headers this !! "SERVER" = Some (VStr "cloudflare-nginx").
Proof.
  unfold servedByCloudFlare, has_property, property.
  destruct (headers this !! "SERVER") as [v|] eqn:Hv.
  - rewrite bool_decide_eq_true_2 by eauto. simpl.
    destruct v as [| | | |s]; simpl; try (split; [done | congruence]).
    rewrite String.eqb_eq. split; congruence.
  - rewrite bool_decide_eq_false_2 by (by intros [? ?]). done.
Qed.

Lemma servedByRailgun_true (this : Request) :
  servedByRailgun this = true ↔ is_Some (headers this !! "CF-RAILGUN").
Proof. unfold servedByRailgun, has_property. apply bool_decide_eq_true. Qed.

(** The statement of C7 as written, for every request record, fails on a
    record without a server ip: the specification's variant would be "off",
    but [getPageActionPath] throws and no key is produced. *)
Lemma icon_variant_every_record_counterexample :
  spec_icon_variant (servedByCloudFlare request_without_ip)
    (ToBoolean (servedOverSPDY request_without_ip))
    (ip_has_colon (getServerIP request_without_ip))
    (servedByRailgun request_without_ip) = "off"
  ∧ new_Request details_without_ip = Normal request_without_ip
  ∧ getPageActionPath request_without_ip = Throw TypeError
  ∧ ¬ (∀ this : Request,
         getPageActionPath this =
         Normal ("images/claire-3-"
                 +:+ spec_icon_variant (servedByCloudFlare this)
                       (ToBoolean (servedOverSPDY this))
                       (ip_has_colon (getServerIP this)) (servedByRailgun this)
                 +:+ ".png")).
Proof.
  split; [reflexivity|]. split; [reflexivity|]. split; [reflexivity|].
  intros H. specialize (H request_without_ip). discriminate H.
Qed.

(** C7, amended.  For every request record whose server ip is a string,
    the icon path is the fixed root, the variant key and the extension,
    where the key is the dash-join of: "on" if header SERVER equals exactly
    "cloudflare-nginx", else "off"; then "spdy" iff the stored transport
    status is truthy; then "ipv6" iff the server ip contains a colon; then
    "rg" iff header CF-RAILGUN is present.  All four true give
    "on-spdy-ipv6-rg", all four false give "off". *)
Theorem icon_variant (this : Request) (s : string) :
  getServerIP this = VStr s →
  ∃ edge ipv6 accelerator : bool,
    getPageActionPath this =
    Normal ("images/claire-3-"
            +:+ spec_icon_variant edge (ToBoolean (servedOverSPDY this)) ipv6
                  accelerator
            +:+ ".png")
    ∧ (edge = true ↔ headers this !! "SERVER" = Some (VStr "cloudflare-nginx"))
    ∧ (ipv6 = true ↔ contains s ":")
    ∧ (accelerator = true ↔ is_Some (headers this !! "CF-RAILGUN"))
    ∧ spec_icon_variant true true true true = "on-spdy-ipv6-rg"
    ∧ spec_icon_variant false false false false = "off".
Proof.
  intros Hip.
  exists (servedByCloudFlare this), (negb (indexOf s ":" =? -1)), (servedByRailgun this).
  split; [by apply getPageActionPath_string|].
  split; [apply servedByCloudFlare_true|].
  split; [apply indexOf_contains|].
  split; [apply servedByRailgun_true|].
  done.
Qed.

Lemma icon_variant_witness :
  getPageActionPath request_all_features
  = Normal "images/claire-3-on-spdy-ipv6-rg.png"
  ∧ getPageActionPath request_no_features = Normal "images/claire-3-off.png".
Proof.
  split.
  - destruct (icon_variant request_all_features "2001:db8::1" eq_refl)
      as (edge & ipv6 & accelerator & Hpath & Hedge & Hipv6 & Hacc & _).
    rewrite Hpath.
    rewrite (proj2 Hedge eq_refl).
    rewrite (proj2 Hipv6 (ex_intro _ "2001" (ex_intro _ "db8::1" eq_refl))).
    rewrite (proj2 Hacc (ex_intro _ _ eq_refl)).
    reflexivity.
  - destruct (icon_variant request_no_features "192.0.2.1" eq_refl)
      as (edge & ipv6 & accelerator & Hpath & Hedge & Hipv6 & Hacc & _).
    rewrite Hpath.
    destruct edge; [by apply proj1 in Hedge; specialize (Hedge eq_refl)|].
    destruct ipv6;
      [apply proj1 in Hipv6; specialize (Hipv6 eq_refl);
       by apply indexOf_contains in Hipv6|].
    destruct accelerator;
      [apply proj1 in Hacc; specialize (Hacc eq_refl); by destruct Hacc|].
    reflexivity.
Defined.

(** ** The server ip precondition *)

(** C10.  [isv6IP] reads the server ip without a check: when the ip is a
    string it completes normally with true iff the string contains a colon,
    and then the icon path is computed; when the ip is not a string, as for
    a record created from completion details without an ip, both throw. *)
Theorem isv6IP_total_iff_ip_string :
  (∀ (this : Request) (s : string),
     getServerIP this = VStr s →
     ∃ b : bool,
       isv6IP this = Normal b
       ∧ (b = true ↔ contains s ":")
       ∧ ∃ path, getPageActionPath this = Normal path)
  ∧ (∀ this : Request,
       (∀ s, getServerIP this ≠ VStr s) →
       isv6IP this = Throw TypeError
       ∧ getPageActionPath this = Throw TypeError)
  ∧ (∀ (d : Details) (hs : list HttpHeader),
       responseHeaders d = Some hs →
       ip d = VUndefined →
       ∃ r, new_Request d = Normal r
            ∧ isv6IP r = Throw TypeError
            ∧ getPageActionPath r = Throw TypeError).
Proof.
  split; [|split].
  - intros this s Hip. exists (negb (indexOf s ":" =? -1)).
    split; [by apply isv6IP_string|]. split; [apply indexOf_contains|].
    eexists. by apply getPageActionPath_string.
  - intros this Hip. split;
      [by apply isv6IP_not_string | by apply getPageActionPath_not_string].
  - intros d hs Hhs Hip.
    destruct (new_Request_total d hs Hhs) as (r & Hr & Hd & _).
    exists r. split; [done|].
    assert (∀ s, getServerIP r ≠ VStr s) as Hno
      by (intros s; unfold getServerIP; rewrite Hd, Hip; done).
    split; [by apply isv6IP_not_string | by apply getPageActionPath_not_string].
Qed.

Lemma isv6IP_total_iff_ip_string_witness :
  (∃ b : bool,
     isv6IP request_all_features = Normal b
     ∧ (b = true ↔ contains "2001:db8::1" ":")
     ∧ ∃ path, getPageActionPath request_all_features = Normal path)
  ∧ (isv6IP request_without_ip = Throw TypeError
     ∧ getPageActionPath request_without_ip = Throw TypeError)
  ∧ (∃ r, new_Request details_without_ip = Normal r
          ∧ isv6IP r = Throw TypeError
          ∧ getPageActionPath r = Throw TypeError).
Proof.
  destruct isv6IP_total_iff_ip_string as (Hstring & Hother & Hnew).
  split; [|split].
  - apply (Hstring request_all_features "2001:db8::1"). reflexivity.
  - apply (Hother request_without_ip). intros s. discriminate.
  - apply (Hnew details_without_ip [ {| name := "Server"; value := VStr "nginx" |} ]);
      reflexivity.
Defined.

(** ** The registry *)

(** Logging touches nothing but the trace. *)
Lemma logToConsole_store (this : nat) (w : World) :
  let w' := fst (logToConsole this w) in
  heap w' = heap w ∧ requests w' = requests w.
Proof.
  unfold logToConsole. run.
  destruct (negb (bool_decide (debug_logging w = Some "yes"))); [done|].
  destruct (heap w !! this) as [r|]; [|done]. run.
  destruct (servedByCloudFlare r); run;
    (destruct (servedByRailgun r); [|done]);
    (destruct (getRailgunMetaData r) as [md|]; [|done]);
    by destruct (rg_messages md).
Qed.

(** After a completed request the registry maps the tab to a new location
    that holds the new record; nothing else in heap or registry changes. *)
Lemma processCompletedRequest_store (w : World) (d : Details) (r : Request) :
  new_Request d = Normal r →
  let w' := fst (processCompletedRequest d w) in
  heap w' = (heap w ++ [r])%list
  ∧ requests w' = <[tabId d := length (heap w)]> (requests w).
Proof.
  intros Hr. unfold processCompletedRequest. run. rewrite Hr.
  match goal with |- context [logToConsole ?l ?w0] =>
    pose proof (logToConsole_store l w0) as [Hh Hq];
    destruct (logToConsole l w0) as [w1 c]
  end.
  cbn in *. by destruct c.
Qed.

(** A request whose details carry no header list registers nothing. *)
Lemma processCompletedRequest_throws (w : World) (d : Details) :
  responseHeaders d = None →
  processCompletedRequest d w = (w, Throw TypeError).
Proof.
  intros Hhs. unfold processCompletedRequest. run.
  by rewrite (new_Request_no_headers d Hhs).
Qed.

Lemma onReplaced_present (w : World) (addedTabId removedTabId : Z) (request : nat) :
  requests w !! removedTabId = Some request →
  onReplaced addedTabId removedTabId w
  = (set_requests (delete removedTabId (<[addedTabId := request]> (requests w))) w,
     Normal tt).
Proof.
  intros Hl. unfold onReplaced, has_property. run.
  rewrite bool_decide_eq_true_2 by eauto. run. by rewrite Hl.
Qed.

Lemma onReplaced_absent (w : World) (addedTabId removedTabId : Z) :
  requests w !! removedTabId = None →
  onReplaced addedTabId removedTabId w
  = (set_trace
       (trace w ++
        [console_log
           [LStr "could not find an entry in requests for "; LNum removedTabId]])
       w,
     Normal tt).
Proof.
  intros Hl. unfold onReplaced, has_property. run.
  by rewrite bool_decide_eq_false_2 by (rewrite Hl; by intros [? ?]).
Qed.

(** C8.  After a request completes for a tab (tab 1), creating record [r],
    and that tab is replaced by another (tab 2): the old tab id has no
    entry, the new tab id maps to the location the old one mapped to, which
    still holds [r], and the entry of every other tab id and every object
    already in the heap are unchanged.  When the removed tab id has
    no entry, the handler logs a diagnostic and changes neither registry nor
    heap. *)
Theorem tab_replace_moves_record :
  (∀ (w : World) (d : Details) (r : Request) (addedTabId : Z),
     new_Request d = Normal r →
     addedTabId ≠ tabId d →
     let w1 := fst (processCompletedRequest d w) in
     let w2 := fst (onReplaced addedTabId (tabId d) w1) in
     ∃ request : nat,
       requests w1 !! tabId d = Some request
       ∧ heap w1 !! request = Some r
       ∧ requests w2 !! tabId d = None
       ∧ requests w2 !! addedTabId = Some request
       ∧ heap w2 !! request = Some r
       ∧ (∀ t, t ≠ tabId d → t ≠ addedTabId → requests w2 !! t = requests w !! t)
       ∧ (∀ l r', heap w !! l = Some r' → heap w2 !! l = Some r'))
  ∧ (∀ (w : World) (addedTabId removedTabId : Z),
       requests w !! removedTabId = None →
       ∃ w', onReplaced addedTabId removedTabId w = (w', Normal tt)
             ∧ requests w' = requests w
             ∧ heap w' = heap w
             ∧ trace w' =
               (trace w ++
                [console_log
                   [LStr "could not find an entry in requests for ";
                    LNum removedTabId]])%list).
Proof.
  split.
  - intros w d r addedTabId Hr Hne w1 w2.
    destruct (processCompletedRequest_store w d r Hr) as [Hheap Hreq].
    fold w1 in Hheap, Hreq.
    assert (requests w1 !! tabId d = Some (length (heap w))) as Hl
      by (rewrite Hreq; apply lookup_insert_eq).
    subst w2. rewrite (onReplaced_present w1 _ _ _ Hl). cbn [fst requests heap set_requests].
    exists (length (heap w)). rewrite Hheap, Hreq.
    split; [apply lookup_insert_eq|].
    split; [by rewrite lookup_app_r, Nat.sub_diag|].
    split; [apply lookup_delete_eq|].
    split; [by rewrite lookup_delete_ne, lookup_insert_eq|].
    split; [by rewrite lookup_app_r, Nat.sub_diag|].
    split.
    + intros t Ht1 Ht2. by rewrite lookup_delete_ne, !lookup_insert_ne.
    + intros l r' Hl'. by apply lookup_app_l_Some.
  - intros w addedTabId removedTabId Hl. eexists. split;
      [by apply onReplaced_absent | done].
Qed.

Lemma tab_replace_moves_record_witness :
  let w1 := fst (processCompletedRequest details_tab1 initial_world) in
  let w2 := fst (onReplaced 2 1 w1) in
  (∃ request : nat,
     requests w1 !! 1 = Some request
     ∧ heap w1 !! request = Some request_tab1
     ∧ requests w2 !! 1 = None
     ∧ requests w2 !! 2 = Some request
     ∧ heap w2 !! request = Some request_tab1
     ∧ (∀ t, t ≠ 1 → t ≠ 2 → requests w2 !! t = requests initial_world !! t)
     ∧ (∀ l r', heap initial_world !! l = Some r' → heap w2 !! l = Some r'))
  ∧ (∃ w', onReplaced 2 1 initial_world = (w', Normal tt)
           ∧ requests w' = requests initial_world
           ∧ heap w' = heap initial_world
           ∧ trace w' =
             [console_log [LStr "could not find an entry in requests for "; LNum 1]]).
Proof.
  destruct tab_replace_moves_record as [Hmove Habsent]. split.
  - apply (Hmove initial_world details_tab1 request_tab1 2).
    + reflexivity.
    + discriminate.
  - apply (Habsent initial_world 2 1). reflexivity.
Defined.

(** ** The DOM-content-loaded listener *)

(** A query on a record whose status is not known sends the message when
    the host accepts the call. *)
Lemma querySPDYStatusAndSetIcon_unknown (w : World) (this : nat) (r : Request) :
  heap w !! this = Some r →
  hasSPDYStatus r = false →
  sendMessage_throws (host w) (tabId (details r)) = false →
  querySPDYStatusAndSetIcon this w
  = (set_trace
       (trace w ++ [tabs_sendMessage (tabId (details r)) "check_spdy_status"]) w,
     Normal tt).
Proof.
  intros Hheap Hunknown Hhost. unfold querySPDYStatusAndSetIcon. run.
  rewrite Hheap. run. rewrite Hunknown. run. by rewrite Hhost.
Qed.

(** C3.  Frame ids are as the host delivers them: 0 for the top frame,
    positive for a sub-frame.  The handler ignores (no query, no change of
    the world) every event whose frameId is not 0; for an event with
    frameId 0 whose tab id has a registry entry it runs the query on that
    record, which for a record of unknown status on a host that accepts
    the message sends the query to the record's tab; and for a tab id
    without an entry it does nothing. *)
Theorem frame_filter (w : World) (d : NavigationDetails) :
  0 ≤ frameId d →
  (frameId d ≠ 0 → onDOMContentLoaded d w = (w, Normal tt))
  ∧ (frameId d = 0 →
     ∀ request, requests w !! nav_tabId d = Some request →
       onDOMContentLoaded d w = querySPDYStatusAndSetIcon request w
       ∧ ∀ r, heap w !! request = Some r →
           hasSPDYStatus r = false →
           sendMessage_throws (host w) (tabId (details r)) = false →
           trace (fst (onDOMContentLoaded d w))
           = (trace w ++ [tabs_sendMessage (tabId (details r)) "check_spdy_status"])%list
           ∧ heap (fst (onDOMContentLoaded d w)) = heap w
           ∧ requests (fst (onDOMContentLoaded d w)) = requests w
           ∧ snd (onDOMContentLoaded d w) = Normal tt)
  ∧ (frameId d = 0 →
     requests w !! nav_tabId d = None →
     onDOMContentLoaded d w = (w, Normal tt)).
Proof.
  intros Hnonneg. unfold onDOMContentLoaded. split; [|split].
  - intros Hf. by rewrite (proj2 (Z.gtb_lt _ _)) by lia.
  - intros Hf request Hl. rewrite Hf. cbn [Z.gtb Z.compare]. run. rewrite Hl.
    split; [done|]. intros r Hheap Hunknown Hhost.
    by rewrite (querySPDYStatusAndSetIcon_unknown w request r).
  - intros Hf Hl. rewrite Hf. cbn [Z.gtb Z.compare]. run. by rewrite Hl.
Qed.

Lemma frame_filter_witness :
  onDOMContentLoaded {| nav_tabId := 1; frameId := 3 |} world_tracking_tab1
  = (world_tracking_tab1, Normal tt)
  ∧ trace (fst (onDOMContentLoaded {| nav_tabId := 1; frameId := 0 |}
                  world_tracking_tab1))
    = [tabs_sendMessage 1 "check_spdy_status"]
  ∧ onDOMContentLoaded {| nav_tabId := 5; frameId := 0 |} world_tracking_tab1
    = (world_tracking_tab1, Normal tt).
Proof.
  split; [|split].
  - destruct (frame_filter world_tracking_tab1 {| nav_tabId := 1; frameId := 3 |})
      as (Hignore & _); [discriminate|].
    apply Hignore. discriminate.
  - destruct (frame_filter world_tracking_tab1 {| nav_tabId := 1; frameId := 0 |})
      as (_ & Hquery & _); [discriminate|].
    destruct (Hquery eq_refl 0%nat eq_refl) as [_ Hsend].
    destruct (Hsend request_tab1 eq_refl eq_refl eq_refl) as [Htrace _].
    exact Htrace.
  - destruct (frame_filter world_tracking_tab1 {| nav_tabId := 5; frameId := 0 |})
      as (_ & _ & Hnone); [discriminate|].
    apply Hnone; reflexivity.
Defined.

(** ** The transport status *)

Lemma Request_property_spdy (r : Request) : Request_property r "spdy" = VUndefined.
Proof. reflexivity. Qed.

(** C1 (the code departs from the claim).  For every inbound message
    whose sender's tab id has a record, the listener acknowledges and marks
    the record's status as known, but what it stores is undefined whatever
    the payload reports: the listener's [var request] takes the place of the
    message, and [request.spdy] is read from the record, which has no such
    property.  [servedOverSPDY] afterwards returns undefined. *)
Theorem onMessage_stores_undefined (w : World) (message : Message) (id : Z)
    (request : nat) (r : Request) :
  requests w !! id = Some request →
  heap w !! request = Some r →
  ∃ w' r',
    onMessage message {| tab_id := Some id |} w = (w', Normal tt)
    ∧ heap w' !! request = Some r'
    ∧ r' = set_SPDY VUndefined (set_hasSPDYStatus true r)
    ∧ servedOverSPDY r' = VUndefined
    ∧ hasSPDYStatus r' = true
    ∧ requests w' = requests w
    ∧ trace w' = (trace w ++ [sendResponse_empty])%list.
Proof.
  intros Hreq Hheap. unfold onMessage. cbn [tab_id]. run. rewrite Hreq. run.
  rewrite Hheap. unfold setSPDYStatus. run.
  eexists _, _. split; [reflexivity|]. cbn [heap requests trace set_heap set_trace].
  split; [by rewrite !list_lookup_alter_eq, Hheap|]. done.
Qed.

(** The failing input of C1: tab 1 has a record, and its page reports
    [{spdy: true}]. *)
Lemma onMessage_stores_undefined_witness :
  ∃ w' r',
    onMessage {| spdy := VBool true |} {| tab_id := Some 1 |} world_tracking_tab1
    = (w', Normal tt)
    ∧ heap w' !! 0%nat = Some r'
    ∧ servedOverSPDY r' = VUndefined
    ∧ servedOverSPDY r' ≠ VBool true
    ∧ hasSPDYStatus r' = true.
Proof.
  destruct (onMessage_stores_undefined world_tracking_tab1 {| spdy := VBool true |}
              1 0%nat request_tab1 eq_refl eq_refl)
    as (w' & r' & Hrun & Hheap & _ & Hspdy & Hknown & _).
  exists w', r'. rewrite Hspdy. repeat split; try assumption. discriminate.
Defined.

Lemma setPageActionIconAndPopup_run (w : World) (this : nat) (r : Request) (s : string) :
  heap w !! this = Some r →
  getServerIP r = VStr s →
  ∃ path,
    getPageActionPath r = Normal path
    ∧ setPageActionIconAndPopup this w
      = (set_trace (trace w ++ [pageAction_setIcon (tabId (details r)) path]) w,
         Normal tt).
Proof.
  intros Hheap Hip. eexists. split; [by apply getPageActionPath_string|].
  unfold setPageActionIconAndPopup. run. rewrite Hheap. run.
  by rewrite (getPageActionPath_string r s Hip).
Qed.

(** C2 (the code departs from the claim).  No path that receives a status
    value does all of: mark the record known, store the value, publish the
    icon once.  The reply to the query ([cs_message_callback]) stores the
    value and publishes the icon exactly once, but leaves [hasSPDYStatus]
    false, so the next query sends the message again instead of using the
    stored value; [setSPDYStatus], the one place that sets [hasSPDYStatus],
    stores the value and publishes nothing. *)
Theorem status_received_without_transition (w : World) (tabID : Z) (request : nat)
    (r : Request) (status : val) (s : string) :
  requests w !! tabID = Some request →
  heap w !! request = Some r →
  hasSPDYStatus r = false →
  getServerIP r = VStr s →
  sendMessage_throws (host w) (tabId (details r)) = false →
  (∃ w' path,
     cs_message_callback tabID (Some {| spdy := status |}) w = (w', Normal tt)
     ∧ heap w' !! request = Some (set_SPDY status r)
     ∧ hasSPDYStatus (set_SPDY status r) = false
     ∧ servedOverSPDY (set_SPDY status r) = status
     ∧ getPageActionPath (set_SPDY status r) = Normal path
     ∧ trace w' = (trace w ++ [pageAction_setIcon (tabId (details r)) path])%list
     ∧ querySPDYStatusAndSetIcon request w'
       = (set_trace
            (trace w' ++ [tabs_sendMessage (tabId (details r)) "check_spdy_status"])
            w',
          Normal tt))
  ∧ (∃ w',
       setSPDYStatus request status w = (w', Normal tt)
       ∧ heap w' !! request = Some (set_SPDY status (set_hasSPDYStatus true r))
       ∧ trace w' = trace w).
Proof.
  intros Hreq Hheap Hunknown Hip Hhost. split.
  - unfold cs_message_callback. run. rewrite Hreq. run. cbn [spdy].
    set (w1 := set_heap (alter (set_SPDY status) request (heap w)) w).
    assert (heap w1 !! request = Some (set_SPDY status r)) as Hheap1
      by (subst w1; cbn; by rewrite list_lookup_alter_eq, Hheap).
    destruct (setPageActionIconAndPopup_run w1 request (set_SPDY status r) s Hheap1 Hip)
      as (path & Hpath & Hrun).
    rewrite Hrun. eexists _, path. split; [reflexivity|].
    repeat split; try done.
    by apply (querySPDYStatusAndSetIcon_unknown _ request (set_SPDY status r)).
  - unfold setSPDYStatus. run. eexists. split; [reflexivity|].
    cbn [heap trace set_heap]. split; [by rewrite !list_lookup_alter_eq, Hheap | done].
Qed.

(** The failing input of C2: tab 1 has a record of unknown status, and the
    page replies [{spdy: true}] to the query. *)
Lemma status_received_without_transition_witness :
  ∃ w' r',
    cs_message_callback 1 (Some {| spdy := VBool true |}) world_tracking_tab1
    = (w', Normal tt)
    ∧ heap w' !! 0%nat = Some r'
    ∧ servedOverSPDY r' = VBool true
    ∧ hasSPDYStatus r' = false
    ∧ trace w' = [pageAction_setIcon 1 "images/claire-3-on-spdy.png"]
    ∧ trace (fst (querySPDYStatusAndSetIcon 0 w'))
      = [pageAction_setIcon 1 "images/claire-3-on-spdy.png";
         tabs_sendMessage 1 "check_spdy_status"].
Proof.
  destruct (status_received_without_transition world_tracking_tab1 1 0%nat
              request_tab1 (VBool true) "192.0.2.1"
              eq_refl eq_refl eq_refl eq_refl eq_refl)
    as [(w' & path & Hrun & Hheap & Hunknown & Hspdy & Hpath & Htrace & Hagain) _].
  exists w', (set_SPDY (VBool true) request_tab1).
  injection Hpath as <-.
  split; [exact Hrun|]. split; [exact Hheap|]. split; [reflexivity|].
  split; [reflexivity|]. split; [exact Htrace|].
  rewrite Hagain. cbn [fst trace set_trace]. rewrite Htrace. reflexivity.
Defined.

(** ** The registry points into the heap *)

Lemma keeps_ret {A} (a : A) : keeps_store (mret a).
Proof. by intros w. Qed.

Lemma keeps_bind {A B} (m : M A) (f : A → M B) :
  keeps_store m → (∀ a, keeps_store (f a)) → keeps_store (m ≫= f).
Proof.
  intros Hm Hf w. specialize (Hm w). unfold mbind, M_bind.
  destruct (m w) as [w1 [a|e]]; [|done].
  destruct (Hf a w1) as [Hq Hh]. cbn in Hm. destruct Hm. split; congruence.
Qed.

Lemma keeps_try_catch {A} (body : M A) (handler : exn → M A) :
  keeps_store body → (∀ e, keeps_store (handler e)) →
  keeps_store (try_catch body handler).
Proof.
  intros Hm Hf w. specialize (Hm w). unfold try_catch.
  destruct (body w) as [w1 [a|e]]; [done|].
  destruct (Hf e w1) as [Hq Hh]. cbn in Hm. destruct Hm. split; congruence.
Qed.

Lemma keeps_throw {A} (e : exn) : keeps_store (throw (A:=A) e).
Proof. by intros w. Qed.

Lemma keeps_lift {A} (c : completion A) : keeps_store (lift c).
Proof. by intros w. Qed.

Lemma keeps_get_world : keeps_store get_world.
Proof. by intros w. Qed.

Lemma keeps_emit (e : Event) : keeps_store (emit e).
Proof. by intros w. Qed.

Lemma keeps_load (l : nat) : keeps_store (load l).
Proof. intros w. unfold load. by destruct (heap w !! l). Qed.

Lemma keeps_store_alter (l : nat) (f : Request → Request) : keeps_store (store l f).
Proof. intros w. cbn. by rewrite length_alter. Qed.

Lemma keeps_host_call (throws : Host → Z → bool) (tab : Z) (e : Event) :
  keeps_store (host_call throws tab e).
Proof. intros w. unfold host_call. run. by destruct (throws (host w) tab). Qed.

Create HintDb keeps.
#[local] Hint Resolve keeps_ret keeps_throw keeps_lift keeps_get_world keeps_emit
  keeps_load keeps_store_alter keeps_host_call : keeps.

(** Decompose a computation along its binds and branches. *)
Ltac keeps :=
  repeat first
    [ solve [auto with keeps]
    | progress cbv zeta
    | apply keeps_bind; [|intros ?]
    | apply keeps_try_catch; [|intros ?]
    | match goal with
      | |- keeps_store (if ?b then _ else _) => destruct b
      | |- keeps_store (match ?x with _ => _ end) => destruct x
      end ].

Lemma keeps_setSPDYStatus (this : nat) (status : val) :
  keeps_store (setSPDYStatus this status).
Proof. unfold setSPDYStatus. keeps. Qed.

Lemma keeps_setPageActionIconAndPopup (this : nat) :
  keeps_store (setPageActionIconAndPopup this).
Proof. unfold setPageActionIconAndPopup. keeps. Qed.

Lemma keeps_setIcon_callback (tabID : Z) : keeps_store (setIcon_callback tabID).
Proof. unfold setIcon_callback. keeps. Qed.

#[local] Hint Resolve keeps_setSPDYStatus keeps_setPageActionIconAndPopup : keeps.

Lemma keeps_cs_message_callback (tabID : Z) (cs_msg_response : option Message) :
  keeps_store (cs_message_callback tabID cs_msg_response).
Proof. unfold cs_message_callback. keeps. Qed.

Lemma keeps_querySPDYStatusAndSetIcon (this : nat) :
  keeps_store (querySPDYStatusAndSetIcon this).
Proof. unfold querySPDYStatusAndSetIcon. keeps. Qed.

#[local] Hint Resolve keeps_querySPDYStatusAndSetIcon : keeps.

Lemma keeps_onDOMContentLoaded (d : NavigationDetails) :
  keeps_store (onDOMContentLoaded d).
Proof. unfold onDOMContentLoaded. keeps. Qed.

Lemma keeps_onMessage (message : Message) (sender : MessageSender) :
  keeps_store (onMessage message sender).
Proof. unfold onMessage. keeps. Qed.

Lemma keeps_registry_in_heap {A} (m : M A) (w : World) :
  keeps_store m → registry_in_heap w → registry_in_heap (fst (m w)).
Proof.
  intros Hm Hw t l. destruct (Hm w) as [-> ->]. apply Hw.
Qed.

Lemma registry_in_heap_initial : registry_in_heap initial_world.
Proof. intros t l. unfold initial_world. cbn [requests]. by rewrite lookup_empty. Qed.

Lemma registry_in_heap_processCompletedRequest (d : Details) (w : World) :
  registry_in_heap w → registry_in_heap (fst (processCompletedRequest d w)).
Proof.
  intros Hw. destruct (new_Request d) as [r|e] eqn:Hr.
  - destruct (processCompletedRequest_store w d r Hr) as [Hh Hq].
    intros t l. rewrite Hh, Hq, length_app. cbn.
    destruct (decide (tabId d = t)) as [->|Hne].
    + rewrite lookup_insert_eq. intros [= <-]. lia.
    + rewrite lookup_insert_ne by done. intros Hl%Hw. lia.
  - unfold processCompletedRequest. run. by rewrite Hr.
Qed.

Lemma registry_in_heap_onReplaced (addedTabId removedTabId : Z) (w : World) :
  registry_in_heap w → registry_in_heap (fst (onReplaced addedTabId removedTabId w)).
Proof.
  intros Hw. destruct (requests w !! removedTabId) as [request|] eqn:Hl.
  - rewrite (onReplaced_present w _ _ _ Hl). intros t l. cbn.
    destruct (decide (removedTabId = t)) as [->|Hne];
      [by rewrite lookup_delete_eq|].
    rewrite lookup_delete_ne by done.
    destruct (decide (addedTabId = t)) as [->|Hne'].
    + rewrite lookup_insert_eq. intros [= <-]. by apply (Hw removedTabId).
    + rewrite lookup_insert_ne by done. apply Hw.
  - by rewrite (onReplaced_absent w _ _ Hl).
Qed.

Lemma registry_in_heap_onRemoved (tabId : Z) (w : World) :
  registry_in_heap w → registry_in_heap (fst (onRemoved tabId w)).
Proof.
  intros Hw t l. cbn. destruct (decide (tabId = t)) as [->|Hne];
    [by rewrite lookup_delete_eq|].
  rewrite lookup_delete_ne by done. apply Hw.
Qed.

(** In such a world a registered record can be loaded. *)
Lemma load_registered (w : World) (t : Z) (l : nat) :
  registry_in_heap w → requests w !! t = Some l →
  ∃ r, load l w = (w, Normal r).
Proof.
  intros Hw Hl. destruct (lookup_lt_is_Some_2 (heap w) l (Hw t l Hl)) as [r Hr].
  exists r. unfold load. by rewrite Hr.
Qed.

(** * Further properties of the code *)

(** ** The header map *)

Lemma toUpperCase_char_idempotent (c : ascii) :
  toUpperCase_char (toUpperCase_char c) = toUpperCase_char c.
Proof. destruct c as [[] [] [] [] [] [] [] []]; reflexivity. Qed.

Lemma toUpperCase_idempotent (s : string) : toUpperCase (toUpperCase s) = toUpperCase s.
Proof.
  induction s as [|c s IH]; [done|]. cbn [toUpperCase].
  by rewrite toUpperCase_char_idempotent, IH.
Qed.

Lemma fold_set_headers_lookup (raw : list HttpHeader) (this : Request) (key : string) :
  headers
    (fold_left
       (fun this header =>
          set_headers (<[toUpperCase (name header) := value header]> (headers this)) this)
       raw this) !! key
  = match last_header_value key raw with
    | Some v => Some v
    | None => headers this !! key
    end.
Proof.
  revert this. induction raw as [|h raw IH]; intros this; [done|].
  cbn [fold_left last_header_value]. rewrite IH.
  destruct (last_header_value key raw); [done|]. cbn [headers set_headers].
  destruct (String.eqb (toUpperCase (name h)) key) eqn:Hk.
  - apply String.eqb_eq in Hk. subst key. apply lookup_insert_eq.
  - apply String.eqb_neq in Hk. by apply lookup_insert_ne.
Qed.

Lemma last_header_value_upper (key : string) (hs : list HttpHeader) (v : val) :
  last_header_value key hs = Some v → toUpperCase key = key.
Proof.
  induction hs as [|h hs IH]; [done|]. cbn [last_header_value].
  destruct (last_header_value key hs); [exact IH|].
  destruct (String.eqb (toUpperCase (name h)) key) eqn:Hk; [|done].
  apply String.eqb_eq in Hk. subst key. intros _. apply toUpperCase_idempotent.
Qed.

Lemma fold_set_headers_rest (raw : list HttpHeader) (this : Request) :
  let this' :=
    fold_left
      (fun this header =>
         set_headers (<[toUpperCase (name header) := value header]> (headers this)) this)
      raw this in
  headersRaw this' = headersRaw this
  ∧ railgunMetaData this' = railgunMetaData this.
Proof.
  revert this. induction raw as [|h raw IH]; intros this; simpl; [done|].
  apply (IH (set_headers _ this)).
Qed.

(** What the constructor makes of details that carry a header list. *)
Lemma new_Request_shape (d : Details) (r : Request) :
  new_Request d = Normal r →
  ∃ hs this,
    responseHeaders d = Some hs
    ∧ details r = d
    ∧ headersRaw r = Some hs
    ∧ hasSPDYStatus r = false
    ∧ SPDY r = VUndefined
    ∧ (∀ key, headers r !! key = last_header_value key hs)
    ∧ headers this = headers r
    ∧ (if has_property "CF-RAILGUN" (headers r)
       then processRailgunHeader this = Normal r
       else railgunMetaData r = None).
Proof.
  unfold new_Request, preProcessHeaders. cbn [headersRaw].
  destruct (responseHeaders d) as [hs|] eqn:Hhs; [|done].
  match goal with |- context [fold_left ?f hs ?r0] =>
    pose proof (fold_set_headers_fields hs r0) as (Hd & Hs & Hv);
    pose proof (fold_set_headers_rest hs r0) as (Hraw & Hmd);
    pose proof (fun key => fold_set_headers_lookup hs r0 key) as Hl;
    set (this := fold_left f hs r0) in *
  end.
  cbn in Hd, Hs, Hv, Hraw, Hmd.
  assert (∀ key, headers this !! key = last_header_value key hs) as Hl'.
  { intros key. rewrite Hl. cbn. destruct (last_header_value key hs); [done|].
    apply lookup_empty. }
  destruct (has_property "CF-RAILGUN" (headers this)) eqn:Hp.
  - destruct (processRailgunHeader_messages this) as (md & Hrun & _).
    rewrite Hrun. intros [= <-]. exists hs, this. cbn. by rewrite Hp, Hrun.
  - intros [= <-]. exists hs, this. by rewrite Hp.
Qed.

Lemma last_header_value_In (h : HttpHeader) (hs : list HttpHeader) :
  In h hs → is_Some (last_header_value (toUpperCase (name h)) hs).
Proof.
  induction hs as [|h' hs IH]; [done|]. cbn [last_header_value].
  intros [->|Hin].
  - destruct (last_header_value _ hs); [by eexists|].
    rewrite String.eqb_refl. by eexists.
  - destruct (IH Hin) as [v ->]. by eexists.
Qed.

Lemma toUpperCase_char_ascii (c : ascii) :
  (code c <? 128) = true → (code (toUpperCase_char c) <? 128) = true.
Proof. destruct c as [[] [] [] [] [] [] [] []]; intros H; vm_compute in *; done. Qed.

Lemma toUpperCase_ascii_only (s : string) :
  ascii_only s = true → ascii_only (toUpperCase s) = true.
Proof.
  induction s as [|c s IH]; [done|]. cbn [ascii_only toUpperCase].
  intros [Hc Hs]%andb_true_iff. by rewrite toUpperCase_char_ascii, IH.
Qed.

Lemma last_header_value_name (key : string) (hs : list HttpHeader) (v : val) :
  last_header_value key hs = Some v →
  ∃ h, In h hs ∧ toUpperCase (name h) = key.
Proof.
  induction hs as [|h hs IH]; [done|]. cbn [last_header_value].
  destruct (last_header_value key hs) as [v'|].
  - intros Hv. destruct (IH Hv) as (h' & Hin & Hk). exists h'. by split; [right|].
  - destruct (String.eqb (toUpperCase (name h)) key) eqn:Hk; [|done].
    intros _. apply String.eqb_eq in Hk. exists h. by split; [left|].
Qed.

(** X1.  For header names that are ASCII, as HTTP field names are, the
    constructor turns the header list into a map keyed by the upper-cased
    names in which the last header of a name wins: the value under a key
    is that of the last header whose upper-cased name is the key, every key
    is ASCII and upper-case, and every header of the list is found under
    its upper-cased name. *)
Theorem header_map_last_wins (d : Details) (hs : list HttpHeader) :
  responseHeaders d = Some hs →
  Forall (fun h => ascii_only (name h) = true) hs →
  ∃ r, new_Request d = Normal r
       ∧ (∀ key, headers r !! key = last_header_value key hs)
       ∧ (∀ key, is_Some (headers r !! key) →
            toUpperCase key = key ∧ ascii_only key = true)
       ∧ (∀ h, In h hs → is_Some (headers r !! toUpperCase (name h))).
Proof.
  intros Hhs Hascii. destruct (new_Request_total d hs Hhs) as (r & Hr & _).
  destruct (new_Request_shape d r Hr) as (hs' & this & Hhs' & _ & _ & _ & _ & Hl & _).
  assert (hs' = hs) as -> by congruence.
  exists r. split; [done|]. split; [done|]. split.
  - intros key [v Hv]. rewrite Hl in Hv.
    split; [by apply (last_header_value_upper key hs v)|].
    destruct (last_header_value_name key hs v Hv) as (h & Hin & <-).
    apply toUpperCase_ascii_only.
    by apply (proj1 (Forall_forall _ _) Hascii), list_elem_of_In.
  - intros h Hin. rewrite Hl. by apply last_header_value_In.
Qed.

Lemma header_map_last_wins_witness :
  ∃ r, new_Request details_two_servers = Normal r
       ∧ headers r !! "SERVER" = Some (VStr "nginx")
       ∧ headers r !! "Server" = None
       ∧ headers r !! "CF-RAY" = Some (VStr "1a2b3c-LHR").
Proof.
  destruct (header_map_last_wins details_two_servers _ eq_refl)
    as (r & Hr & Hl & _).
  { repeat constructor. }
  exists r. split; [exact Hr|]. rewrite !Hl. repeat split; reflexivity.
Defined.

(** X2.  The predicates of a constructed record read off the raw header
    list: served by CloudFlare iff the last header named SERVER (in any
    case) has exactly the value "cloudflare-nginx"; served by Railgun, and
    railgun metadata present, iff some header is named CF-RAILGUN; the ray
    id is the value of the last CF-RAY header, undefined without one. *)
Theorem predicates_of_raw_headers (d : Details) (hs : list HttpHeader) :
  responseHeaders d = Some hs →
  ∃ r, new_Request d = Normal r
       ∧ (servedByCloudFlare r = true
          ↔ last_header_value "SERVER" hs = Some (VStr "cloudflare-nginx"))
       ∧ (servedByRailgun r = true ↔ is_Some (last_header_value "CF-RAILGUN" hs))
       ∧ (is_Some (getRailgunMetaData r)
          ↔ is_Some (last_header_value "CF-RAILGUN" hs))
       ∧ getRayID r = default VUndefined (last_header_value "CF-RAY" hs).
Proof.
  intros Hhs. destruct (new_Request_total d hs Hhs) as (r & Hr & _).
  destruct (new_Request_shape d r Hr)
    as (hs' & this & Hhs' & _ & _ & _ & _ & Hl & Hheaders & Hrg).
  assert (hs' = hs) as -> by congruence.
  exists r. split; [done|].
  split; [by rewrite servedByCloudFlare_true, Hl|].
  split; [by rewrite servedByRailgun_true, Hl|].
  split.
  - unfold getRailgunMetaData. rewrite <- Hl. unfold has_property in Hrg.
    destruct (decide (is_Some (headers r !! "CF-RAILGUN"))) as [Hyes|Hno].
    + rewrite bool_decide_eq_true_2 in Hrg by done.
      destruct (processRailgunHeader_messages this) as (md & Hrun & _).
      rewrite Hrun in Hrg. injection Hrg as <-. cbn. split; [done | by eexists].
    + rewrite bool_decide_eq_false_2 in Hrg by done. rewrite Hrg.
      split; [by intros [? ?] | done].
  - unfold getRayID, property. by rewrite Hl.
Qed.

Lemma predicates_of_raw_headers_witness :
  ∃ r, new_Request details_two_servers = Normal r
       ∧ servedByCloudFlare r = false
       ∧ servedByRailgun r = false
       ∧ getRailgunMetaData r = None
       ∧ getRayID r = VStr "1a2b3c-LHR".
Proof.
  destruct (predicates_of_raw_headers details_two_servers _ eq_refl)
    as (r & Hr & Hcf & Hrg & Hmd & Hray).
  exists r. split; [exact Hr|]. split.
  { destruct (servedByCloudFlare r); [|reflexivity].
    apply proj1 in Hcf. specialize (Hcf eq_refl). discriminate Hcf. }
  split.
  { destruct (servedByRailgun r); [|reflexivity].
    apply proj1 in Hrg. specialize (Hrg eq_refl). by destruct Hrg. }
  split; [|exact Hray].
  destruct (getRailgunMetaData r) as [md|]; [|reflexivity].
  apply proj1 in Hmd. specialize (Hmd (ex_intro _ md eq_refl)). by destruct Hmd.
Defined.

(** ** The registry, further *)

(** X3.  A completed request whose details carry no header list makes
    the constructor throw TypeError before anything is registered: the
    world, and with it any earlier record of the tab, stays as it was. *)
Theorem completed_request_without_headers (w : World) (d : Details) :
  responseHeaders d = None →
  processCompletedRequest d w = (w, Throw TypeError)
  ∧ new_Request d = Throw TypeError.
Proof.
  intros Hhs. split; [by apply processCompletedRequest_throws |
                      by apply new_Request_no_headers].
Qed.

Lemma completed_request_without_headers_witness :
  processCompletedRequest details_without_headers world_tracking_tab1
  = (world_tracking_tab1, Throw TypeError)
  ∧ new_Request details_without_headers = Throw TypeError.
Proof.
  apply (completed_request_without_headers world_tracking_tab1 details_without_headers).
  reflexivity.
Defined.

(** X4.  A completed request whose record [r] is constructed registers [r]
    at a location that was not in the heap, under the request's tab id,
    replacing whatever entry the tab had; the entries of the other tabs
    and all objects already in the heap, the replaced record among them,
    are as before.  Unless debug logging is on, nothing else happens. *)
Theorem completed_request_registers (w : World) (d : Details) (r : Request) :
  new_Request d = Normal r →
  let w' := fst (processCompletedRequest d w) in
  let l := length (heap w) in
  requests w' !! tabId d = Some l
  ∧ heap w !! l = None
  ∧ heap w' !! l = Some r
  ∧ (∀ t, t ≠ tabId d → requests w' !! t = requests w !! t)
  ∧ (∀ l' r', heap w !! l' = Some r' → heap w' !! l' = Some r')
  ∧ (debug_logging w ≠ Some "yes" →
     processCompletedRequest d w
     = (set_requests (<[tabId d := l]> (requests w)) (set_heap (heap w ++ [r]) w),
        Normal tt)).
Proof.
  intros Hr w' l.
  destruct (processCompletedRequest_store w d r Hr) as [Hheap Hreq].
  fold w' in Hheap, Hreq. rewrite Hheap, Hreq.
  split; [apply lookup_insert_eq|].
  split; [by apply lookup_ge_None_2|].
  split; [by rewrite lookup_app_r, Nat.sub_diag|].
  split; [intros t Ht; by rewrite lookup_insert_ne|].
  split; [intros l' r' Hl'; by apply lookup_app_l_Some|].
  intros Hdebug. unfold processCompletedRequest. run. rewrite Hr.
  unfold logToConsole. run. by rewrite bool_decide_eq_false_2.
Qed.

Lemma completed_request_registers_witness :
  let w' := fst (processCompletedRequest details_two_servers world_tracking_tab1) in
  requests w' !! 1 = Some 1%nat
  ∧ heap world_tracking_tab1 !! 1%nat = None
  ∧ (∃ r, new_Request details_two_servers = Normal r ∧ heap w' !! 1%nat = Some r)
  ∧ heap w' !! 0%nat = Some request_tab1
  ∧ trace w' = [].
Proof.
  destruct (new_Request_total details_two_servers _ eq_refl) as (r & Hr & _).
  destruct (completed_request_registers world_tracking_tab1 details_two_servers r Hr)
    as (Hreq & Hfresh & Hheap & _ & Hold & Hquiet).
  split; [exact Hreq|]. split; [exact Hfresh|].
  split; [exists r; by split|].
  split; [apply Hold; reflexivity|].
  rewrite Hquiet by discriminate. reflexivity.
Defined.

(** X5.  Logging can throw after the record is registered: with debug
    logging on, a request with a CF-RAILGUN header whose value is not a
    string gets empty railgun metadata, is registered, and then
    [logToConsole] throws TypeError on the missing messages. *)
Theorem debug_log_throws_without_messages (w : World) (d : Details) (r : Request)
    (v : val) :
  new_Request d = Normal r →
  headers r !! "CF-RAILGUN" = Some v →
  (∀ s, v ≠ VStr s) →
  debug_logging w = Some "yes" →
  getRailgunMetaData r = Some empty_metadata
  ∧ snd (processCompletedRequest d w) = Throw TypeError
  ∧ requests (fst (processCompletedRequest d w)) !! tabId d = Some (length (heap w))
  ∧ heap (fst (processCompletedRequest d w)) !! length (heap w) = Some r.
Proof.
  intros Hr Hv Hnot Hdebug.
  destruct (new_Request_shape d r Hr) as (hs & this & _ & _ & _ & _ & _ & _ & Hh & Hrg).
  assert (has_property "CF-RAILGUN" (headers r) = true) as Hp
    by (unfold has_property; rewrite bool_decide_eq_true_2; [done | by eexists]).
  rewrite Hp in Hrg.
  assert (processRailgunHeader this = Normal (set_railgunMetaData empty_metadata this))
    as Hempty.
  { unfold processRailgunHeader, property. rewrite Hh, Hv.
    destruct v as [| | | |s]; try done. by destruct (Hnot s). }
  rewrite Hempty in Hrg. injection Hrg as <-.
  split; [done|].
  destruct (processCompletedRequest_store w d _ Hr) as [Hheap Hreq].
  split; [|split; [rewrite Hreq; apply lookup_insert_eq
                  |by rewrite Hheap, lookup_app_r, Nat.sub_diag]].
  unfold processCompletedRequest. run. rewrite Hr. unfold logToConsole. run.
  rewrite Hdebug. rewrite bool_decide_eq_true_2 by done. cbn [negb]. run.
  rewrite lookup_app_r, Nat.sub_diag by done. cbn [lookup list_lookup]. run.
  assert (servedByRailgun (set_railgunMetaData empty_metadata this) = true) as ->
    by exact Hp.
  by destruct (servedByCloudFlare (set_railgunMetaData empty_metadata this)).
Qed.

Lemma debug_log_throws_without_messages_witness :
  snd (processCompletedRequest details_binary_railgun debug_world) = Throw TypeError
  ∧ requests (fst (processCompletedRequest details_binary_railgun debug_world)) !! 1
    = Some 0%nat.
Proof.
  destruct (new_Request_total details_binary_railgun _ eq_refl) as (r & Hr & _).
  destruct (debug_log_throws_without_messages debug_world details_binary_railgun r
              VUndefined Hr)
    as (_ & Hthrow & Hreq & _).
  - injection Hr as <-. reflexivity.
  - intros s. discriminate.
  - reflexivity.
  - split; [exact Hthrow | exact Hreq].
Defined.

(** X6.  Removing a tab completes normally, leaves the tab without an
    entry and every other entry, the heap and the trace as they were;
    removing a tab that has no entry changes nothing at all. *)
Theorem tab_removed_clears (w : World) (tabId : Z) :
  ∃ w', onRemoved tabId w = (w', Normal tt)
        ∧ requests w' !! tabId = None
        ∧ (∀ t, t ≠ tabId → requests w' !! t = requests w !! t)
        ∧ heap w' = heap w
        ∧ trace w' = trace w
        ∧ (requests w !! tabId = None → w' = w).
Proof.
  eexists. split; [reflexivity|]. cbn [requests heap trace set_requests].
  split; [apply lookup_delete_eq|].
  split; [intros t Ht; by apply lookup_delete_ne|].
  split; [done|]. split; [done|].
  intros Hnone. rewrite delete_id by done. by destruct w.
Qed.

Lemma tab_removed_clears_witness :
  requests (fst (onRemoved 1 world_tracking_tab1)) !! 1 = None
  ∧ fst (onRemoved 5 world_tracking_tab1) = world_tracking_tab1.
Proof.
  split.
  - destruct (tab_removed_clears world_tracking_tab1 1) as (w' & Hrun & Hgone & _).
    rewrite Hrun. exact Hgone.
  - destruct (tab_removed_clears world_tracking_tab1 5)
      as (w' & Hrun & _ & _ & _ & _ & Hsame).
    rewrite Hrun. apply Hsame. reflexivity.
Defined.

(** X7.  Replacing a tab that has an entry completes normally and changes
    the registry only: the removed id loses its entry, even when it is
    also the added id, in which case the record is lost to the registry;
    an added id other than the removed one takes over the location,
    replacing any entry of its own; the other entries, the heap (so also
    the tab id stored in the record) and the trace are as before. *)
Theorem tab_replaced_registry (w : World) (addedTabId removedTabId : Z) (request : nat) :
  requests w !! removedTabId = Some request →
  ∃ w', onReplaced addedTabId removedTabId w = (w', Normal tt)
        ∧ requests w' !! removedTabId = None
        ∧ (addedTabId ≠ removedTabId → requests w' !! addedTabId = Some request)
        ∧ (∀ t, t ≠ addedTabId → t ≠ removedTabId →
             requests w' !! t = requests w !! t)
        ∧ heap w' = heap w
        ∧ trace w' = trace w.
Proof.
  intros Hl. eexists. split; [by apply onReplaced_present|].
  cbn [requests heap trace set_requests].
  split; [apply lookup_delete_eq|].
  split; [intros Hne; by rewrite lookup_delete_ne, lookup_insert_eq|].
  split; [|done].
  intros t Ha Hr. by rewrite lookup_delete_ne, lookup_insert_ne.
Qed.

Lemma tab_replaced_registry_witness :
  requests (fst (onReplaced 1 1 world_tracking_tab1)) !! 1 = None
  ∧ requests (fst (onReplaced 2 1 world_tracking_tab1)) !! 2 = Some 0%nat.
Proof.
  split.
  - destruct (tab_replaced_registry world_tracking_tab1 1 1 0%nat eq_refl)
      as (w' & Hrun & Hgone & _).
    rewrite Hrun. exact Hgone.
  - destruct (tab_replaced_registry world_tracking_tab1 2 1 0%nat eq_refl)
      as (w' & Hrun & _ & Hmoved & _).
    rewrite Hrun. apply Hmoved. discriminate.
Defined.

(** ** Computations that only call the host *)

Lemma only_emits_ret {A} (a : A) : only_emits (mret a).
Proof. intros w. repeat split. exists []. by rewrite app_nil_r. Qed.

Lemma only_emits_throw {A} (e : exn) : only_emits (throw (A:=A) e).
Proof. intros w. repeat split. exists []. by rewrite app_nil_r. Qed.

Lemma only_emits_lift {A} (c : completion A) : only_emits (lift c).
Proof. intros w. repeat split. exists []. by rewrite app_nil_r. Qed.

Lemma only_emits_get_world : only_emits get_world.
Proof. intros w. repeat split. exists []. by rewrite app_nil_r. Qed.

Lemma only_emits_emit (e : Event) : only_emits (emit e).
Proof. intros w. repeat split. by exists [e]. Qed.

Lemma only_emits_load (l : nat) : only_emits (load l).
Proof.
  intros w. unfold load. destruct (heap w !! l); repeat split;
    exists []; by rewrite app_nil_r.
Qed.

Lemma only_emits_bind {A B} (m : M A) (f : A → M B) :
  only_emits m → (∀ a, only_emits (f a)) → only_emits (m ≫= f).
Proof.
  intros Hm Hf w. specialize (Hm w). unfold mbind, M_bind.
  destruct (m w) as [w1 [a|e]]; [|done].
  destruct (Hf a w1) as (Hh & Hq & Hd & Ho & ev2 & Ht).
  cbn in Hm. destruct Hm as (Hh1 & Hq1 & Hd1 & Ho1 & ev1 & Ht1).
  repeat split; try congruence.
  exists (ev1 ++ ev2)%list. by rewrite Ht, Ht1, app_assoc.
Qed.

Lemma only_emits_try_catch {A} (body : M A) (handler : exn → M A) :
  only_emits body → (∀ e, only_emits (handler e)) →
  only_emits (try_catch body handler).
Proof.
  intros Hm Hf w. specialize (Hm w). unfold try_catch.
  destruct (body w) as [w1 [a|e]]; [done|].
  destruct (Hf e w1) as (Hh & Hq & Hd & Ho & ev2 & Ht).
  cbn in Hm. destruct Hm as (Hh1 & Hq1 & Hd1 & Ho1 & ev1 & Ht1).
  repeat split; try congruence.
  exists (ev1 ++ ev2)%list. by rewrite Ht, Ht1, app_assoc.
Qed.

Lemma only_emits_host_call (throws : Host → Z → bool) (tab : Z) (e : Event) :
  only_emits (host_call throws tab e).
Proof.
  unfold host_call. apply only_emits_bind; [apply only_emits_get_world|].
  intros w. destruct (throws (host w) tab);
    [apply only_emits_throw | apply only_emits_emit].
Qed.

Create HintDb emits.
#[local] Hint Resolve only_emits_ret only_emits_throw only_emits_lift
  only_emits_get_world only_emits_emit only_emits_load only_emits_host_call : emits.

(** Decompose a computation along its binds and branches. *)
Ltac emits :=
  repeat first
    [ solve [auto with emits]
    | progress cbv zeta
    | apply only_emits_bind; [|intros ?]
    | apply only_emits_try_catch; [|intros ?]
    | match goal with
      | |- only_emits (if ?b then _ else _) => destruct b
      | |- only_emits (match ?x with _ => _ end) => destruct x
      end ].

Lemma only_emits_setPageActionIconAndPopup (this : nat) :
  only_emits (setPageActionIconAndPopup this).
Proof. unfold setPageActionIconAndPopup. emits. Qed.

Lemma only_emits_querySPDYStatusAndSetIcon (this : nat) :
  only_emits (querySPDYStatusAndSetIcon this).
Proof.
  pose proof only_emits_setPageActionIconAndPopup.
  unfold querySPDYStatusAndSetIcon. emits.
Qed.

Lemma only_emits_logToConsole (this : nat) : only_emits (logToConsole this).
Proof. unfold logToConsole. emits. Qed.

(** ** Queries and replies *)

(** X8.  The tab id of a record is not updated when its tab is replaced:
    after the replacement, a top-frame DOM-content-loaded event of the
    new tab sends the query to the old tab id, and a reply to it throws
    TypeError, because the callback looks the old tab id up in the
    registry and it has no entry any more. *)
Theorem replaced_tab_queries_old_id (w : World) (addedTabId removedTabId : Z)
    (request : nat) (r : Request) :
  requests w !! removedTabId = Some request →
  heap w !! request = Some r →
  tabId (details r) = removedTabId →
  addedTabId ≠ removedTabId →
  hasSPDYStatus r = false →
  sendMessage_throws (host w) removedTabId = false →
  let w1 := fst (onReplaced addedTabId removedTabId w) in
  let w2 := fst (onDOMContentLoaded {| nav_tabId := addedTabId; frameId := 0 |} w1) in
  onDOMContentLoaded {| nav_tabId := addedTabId; frameId := 0 |} w1
  = (set_trace (trace w ++ [tabs_sendMessage removedTabId "check_spdy_status"]) w1,
     Normal tt)
  ∧ ∀ response, cs_message_callback removedTabId (Some response) w2
                = (w2, Throw TypeError).
Proof.
  intros Hreq Hheap Htab Hne Hunknown Hhost w1 w2.
  assert (w1 = set_requests
                 (delete removedTabId (<[addedTabId := request]> (requests w))) w)
    as Hw1 by (subst w1; by rewrite (onReplaced_present w _ _ _ Hreq)).
  assert (onDOMContentLoaded {| nav_tabId := addedTabId; frameId := 0 |} w1
          = (set_trace (trace w ++ [tabs_sendMessage removedTabId "check_spdy_status"])
               w1, Normal tt)) as Hdom.
  { unfold onDOMContentLoaded. cbn [frameId nav_tabId Z.gtb Z.compare]. run.
    rewrite Hw1. cbn [requests set_requests].
    rewrite lookup_delete_ne, lookup_insert_eq by done.
    rewrite (querySPDYStatusAndSetIcon_unknown _ request r); cbn; try done;
      by rewrite Htab. }
  split; [exact Hdom|]. intros response. subst w2. rewrite Hdom. cbn [fst].
  unfold cs_message_callback. run. rewrite Hw1. cbn [requests set_requests].
  by rewrite lookup_delete_eq.
Qed.

Lemma replaced_tab_queries_old_id_witness :
  let w1 := fst (onReplaced 2 1 world_tracking_tab1) in
  let w2 := fst (onDOMContentLoaded {| nav_tabId := 2; frameId := 0 |} w1) in
  trace w2 = [tabs_sendMessage 1 "check_spdy_status"]
  ∧ snd (cs_message_callback 1 (Some {| spdy := VBool true |}) w2) = Throw TypeError.
Proof.
  destruct (replaced_tab_queries_old_id world_tracking_tab1 2 1 0%nat request_tab1
              eq_refl eq_refl eq_refl ltac:(discriminate) eq_refl eq_refl)
    as [Hdom Hreply].
  split.
  - rewrite Hdom. reflexivity.
  - rewrite (Hreply {| spdy := VBool true |}). reflexivity.
Defined.

(** X9.  The reply callback does nothing for an undefined reply, and for a
    defined reply throws TypeError, changing nothing, when the tab id it
    was made for has no entry in the registry. *)
Theorem reply_without_effect (w : World) (tabID : Z) :
  cs_message_callback tabID None w = (w, Normal tt)
  ∧ (requests w !! tabID = None →
     ∀ response, cs_message_callback tabID (Some response) w = (w, Throw TypeError)).
Proof.
  split; [done|]. intros Hnone response. unfold cs_message_callback. run.
  by rewrite Hnone.
Qed.

Lemma reply_without_effect_witness :
  cs_message_callback 1 None world_tracking_tab1 = (world_tracking_tab1, Normal tt)
  ∧ cs_message_callback 5 (Some {| spdy := VBool true |}) world_tracking_tab1
    = (world_tracking_tab1, Throw TypeError).
Proof.
  destruct (reply_without_effect world_tracking_tab1 1) as [Hundefined _].
  destruct (reply_without_effect world_tracking_tab1 5) as [_ Hmissing].
  split; [exact Hundefined | apply Hmissing; reflexivity].
Defined.

(** X10.  The reply callback finds its record by tab id, not by identity:
    when a second request completes for the tab before the reply to the
    first one's query arrives, the reply stores its status in the second
    record and leaves the first as it was. *)
Theorem late_reply_writes_current_record (w : World) (d1 d2 : Details)
    (r1 r2 : Request) (response : Message) :
  new_Request d1 = Normal r1 →
  new_Request d2 = Normal r2 →
  tabId d2 = tabId d1 →
  let w1 := fst (processCompletedRequest d1 w) in
  let w2 := fst (processCompletedRequest d2 w1) in
  let w3 := fst (cs_message_callback (tabId d1) (Some response) w2) in
  let l1 := length (heap w) in
  let l2 := S (length (heap w)) in
  requests w2 !! tabId d1 = Some l2
  ∧ heap w3 !! l1 = Some r1
  ∧ heap w3 !! l2 = Some (set_SPDY (spdy response) r2).
Proof.
  intros Hr1 Hr2 Htab w1 w2 w3 l1 l2.
  destruct (processCompletedRequest_store w d1 r1 Hr1) as [Hheap1 Hreq1].
  destruct (processCompletedRequest_store w1 d2 r2 Hr2) as [Hheap2 Hreq2].
  fold w1 in Hheap1, Hreq1. fold w2 in Hheap2, Hreq2.
  assert (length (heap w1) = l2) as Hlen
    by (rewrite Hheap1, length_app; cbn; subst l2; lia).
  assert (requests w2 !! tabId d1 = Some l2) as Hl2
    by (rewrite Hreq2, Htab, Hlen; apply lookup_insert_eq).
  split; [exact Hl2|].
  assert (heap w3 = alter (set_SPDY (spdy response)) l2 (heap w2)) as Hheap3.
  { subst w3. unfold cs_message_callback. run. rewrite Hl2. run.
    match goal with |- context [setPageActionIconAndPopup ?l ?w0] =>
      destruct (only_emits_setPageActionIconAndPopup l w0) as (Hsame & _);
      destruct (setPageActionIconAndPopup l w0) as [w' c]
    end.
    cbn in Hsame. by destruct c. }
  rewrite Hheap3, Hheap2, Hheap1. split.
  - rewrite list_lookup_alter_ne by (subst l1 l2; lia).
    rewrite lookup_app_l by (rewrite length_app; cbn; subst l1; lia).
    by rewrite lookup_app_r, Nat.sub_diag.
  - rewrite list_lookup_alter_eq.
    rewrite lookup_app_r by (rewrite length_app; cbn; subst l2; lia).
    rewrite length_app. cbn [length].
    by replace (l2 - (length (heap w) + 1))%nat with 0%nat by (subst l2; lia).
Qed.

Lemma late_reply_writes_current_record_witness :
  let w2 := fst (processCompletedRequest details_tab1_later world_tracking_tab1) in
  let w3 := fst (cs_message_callback 1 (Some {| spdy := VBool true |}) w2) in
  ∃ r2,
    new_Request details_tab1_later = Normal r2
    ∧ requests w2 !! 1 = Some 1%nat
    ∧ heap w3 !! 0%nat = Some request_tab1
    ∧ heap w3 !! 1%nat = Some (set_SPDY (VBool true) r2).
Proof.
  destruct (new_Request_total details_tab1_later _ eq_refl) as (r2 & Hr2 & _).
  exists r2. split; [exact Hr2|].
  exact (late_reply_writes_current_record initial_world details_tab1
           details_tab1_later request_tab1 r2 {| spdy := VBool true |}
           eq_refl Hr2 eq_refl).
Defined.

(** X11.  Once the status of a record is known, a query publishes the icon
    for the stored value and sends no message. *)
Theorem known_status_publishes_from_cache (w : World) (this : nat) (r : Request)
    (s : string) :
  heap w !! this = Some r →
  hasSPDYStatus r = true →
  getServerIP r = VStr s →
  ∃ path,
    getPageActionPath r = Normal path
    ∧ querySPDYStatusAndSetIcon this w
      = (set_trace (trace w ++ [pageAction_setIcon (tabId (details r)) path]) w,
         Normal tt).
Proof.
  intros Hheap Hknown Hip.
  destruct (setPageActionIconAndPopup_run w this r s Hheap Hip) as (path & Hpath & Hrun).
  exists path. split; [done|]. unfold querySPDYStatusAndSetIcon. run.
  rewrite Hheap. run. by rewrite Hknown.
Qed.

Lemma known_status_publishes_from_cache_witness :
  let w1 := fst (setSPDYStatus 0 (VBool true) world_tracking_tab1) in
  querySPDYStatusAndSetIcon 0 w1
  = (set_trace [pageAction_setIcon 1 "images/claire-3-on-spdy.png"] w1, Normal tt).
Proof.
  destruct (known_status_publishes_from_cache
              (fst (setSPDYStatus 0 (VBool true) world_tracking_tab1)) 0%nat
              (set_SPDY (VBool true) (set_hasSPDYStatus true request_tab1))
              "192.0.2.1" eq_refl eq_refl eq_refl)
    as (path & Hpath & Hrun).
  injection Hpath as <-. exact Hrun.
Defined.

(** X12.  When the host refuses the query, the exception is caught and
    logged, and heap and registry are untouched; but the handler itself
    evaluates [chrome.extension.lastError()], and completes normally only
    if that call does: otherwise what it throws leaves the query, after
    the first log line. *)
Theorem refused_query (w : World) (this : nat) (r : Request) :
  heap w !! this = Some r →
  hasSPDYStatus r = false →
  sendMessage_throws (host w) (tabId (details r)) = true →
  querySPDYStatusAndSetIcon this w
  = match lastError_call (host w) with
    | Normal v =>
        (set_trace
           (trace w ++
            [console_log
               [LStr "caught exception when sending message to content script"];
             console_log [LVal v];
             console_log [LExn HostError]]) w,
         Normal tt)
    | Throw e =>
        (set_trace
           (trace w ++
            [console_log
               [LStr "caught exception when sending message to content script"]]) w,
         Throw e)
    end.
Proof.
  intros Hheap Hunknown Hhost. unfold querySPDYStatusAndSetIcon. run.
  rewrite Hheap. run. rewrite Hunknown. run. rewrite Hhost. run.
  destruct (lastError_call (host w)); run; [|done].
  by rewrite <- !app_assoc.
Qed.

Lemma refused_query_witness :
  querySPDYStatusAndSetIcon 0 refused_world
  = (set_trace
       [console_log [LStr "caught exception when sending message to content script"]]
       refused_world,
     Throw TypeError).
Proof.
  apply (refused_query refused_world 0%nat request_tab1); reflexivity.
Defined.

(** X13.  The function run after the icon is set never throws and touches
    neither heap nor registry: it sets the popup and shows the page action,
    and what the host refuses is caught and logged. *)
Theorem setIcon_callback_never_throws (w : World) (tabID : Z) :
  ∃ events,
    setIcon_callback tabID w = (set_trace (trace w ++ events) w, Normal tt)
    ∧ events =
      if setPopup_throws (host w) tabID then
        [console_log
           [LStr "Exception on page action show for tab with ID: ";
            LNum tabID; LExn HostError]]
      else if show_throws (host w) tabID then
        [pageAction_setPopup tabID "page_action_popup.html";
         console_log
           [LStr "Exception on page action show for tab with ID: ";
            LNum tabID; LExn HostError]]
      else
        [pageAction_setPopup tabID "page_action_popup.html";
         pageAction_show tabID].
Proof.
  eexists. split; [|reflexivity]. unfold setIcon_callback. run.
  destruct (setPopup_throws (host w) tabID) eqn:Hpopup; run; rewrite ?Hpopup;
    [done|].
  destruct (show_throws (host w) tabID) eqn:Hshow; run; rewrite ?Hshow; run;
    by rewrite <- ?app_assoc.
Qed.

(** X14.  A message whose sender has no tab makes the listener throw
    TypeError before it acknowledges; a message from a tab without a
    record is acknowledged and nothing else changes. *)
Theorem message_without_record (w : World) (message : Message) :
  onMessage message {| tab_id := None |} w = (w, Throw TypeError)
  ∧ (∀ id, requests w !! id = None →
       onMessage message {| tab_id := Some id |} w
       = (set_trace (trace w ++ [sendResponse_empty]) w, Normal tt)).
Proof.
  split; [done|]. intros id Hnone. unfold onMessage. cbn [tab_id]. run.
  by rewrite Hnone.
Qed.

Lemma message_without_record_witness :
  onMessage {| spdy := VBool true |} {| tab_id := None |} world_tracking_tab1
  = (world_tracking_tab1, Throw TypeError)
  ∧ onMessage {| spdy := VBool true |} {| tab_id := Some 5 |} world_tracking_tab1
    = (set_trace [sendResponse_empty] world_tracking_tab1, Normal tt).
Proof.
  destruct (message_without_record world_tracking_tab1 {| spdy := VBool true |})
    as [Hnotab Huntracked].
  split; [exact Hnotab | apply Huntracked; reflexivity].
Defined.

(** X15.  The DOM-content-loaded listener only calls the host: whatever
    the event and the world, and whether it completes normally or throws,
    the registry, every record in the heap, the preference and the host
    are as before, and the trace is the old one with calls appended. *)
Theorem dom_content_loaded_only_calls_host (w : World) (d : NavigationDetails) :
  heap (fst (onDOMContentLoaded d w)) = heap w
  ∧ requests (fst (onDOMContentLoaded d w)) = requests w
  ∧ debug_logging (fst (onDOMContentLoaded d w)) = debug_logging w
  ∧ host (fst (onDOMContentLoaded d w)) = host w
  ∧ ∃ events, trace (fst (onDOMContentLoaded d w)) = (trace w ++ events)%list.
Proof.
  pose proof only_emits_querySPDYStatusAndSetIcon.
  assert (only_emits (onDOMContentLoaded d)) as Honly
    by (unfold onDOMContentLoaded; emits).
  apply Honly.
Qed.

(** ** More on the decoder *)

Lemma filter_sublist {A} (P : A → bool) (l : list A) : sublist (List.filter P l) l.
Proof.
  induction l as [|a l IH]; simpl; [constructor|].
  destruct (P a); by constructor.
Qed.

Lemma land_mod_pow2 (z p n : Z) :
  0 ≤ n → 0 ≤ p < 2 ^ n → Z.land (z mod 2 ^ n) p = Z.land z p.
Proof.
  intros Hn Hp. rewrite <- Z.land_ones by done. rewrite <- Z.land_assoc.
  f_equal. rewrite Z.land_comm, Z.land_ones by done. by apply Z.mod_small.
Qed.

Lemma positions_below_128 : Forall (fun f => 0 ≤ position f < 2 ^ 7) flags_in_order.
Proof. repeat constructor; cbn; lia. Qed.

(** X16.  Whatever the bitset, the decoded messages are a selection of the
    seven messages of the table in the table's order, without repetition,
    so at most seven; and only the seven low bits of an integer bitset
    count: it decodes as its remainder modulo 128 does. *)
Theorem decoded_messages_range :
  (∀ bitset : number,
     sublist (decode_flags bitset) all_messages
     ∧ NoDup (decode_flags bitset)
     ∧ (length (decode_flags bitset) ≤ 7)%nat)
  ∧ (∀ z : Z,
       Z.abs z < 2 ^ 53 →
       decode_flags (Number.of_Z z) = decode_flags (Number.of_Z (z mod 128))).
Proof.
  split.
  - intros bitset.
    assert (sublist (decode_flags bitset) all_messages) as Hsub.
    { rewrite decode_flags_filter. apply fmap_sublist, filter_sublist. }
    split; [done|]. split.
    + eapply sublist_NoDup; [apply messages_NoDup | exact Hsub].
    + by apply sublist_length in Hsub.
  - intros z Hz. rewrite !decode_flags_filter. f_equal.
    apply filter_ext_in. intros f Hf. unfold flag_set.
    assert (0 ≤ position f < 2 ^ 7) as Hp
      by (by apply (proj1 (Forall_forall _ _) positions_below_128), list_elem_of_In).
    pose proof (Z.mod_pos_bound z 128 ltac:(lia)) as Hm.
    rewrite !bitand_of_Z by lia.
    change 128 with (2 ^ 7). by rewrite land_mod_pow2 by lia.
Qed.

Lemma decoded_messages_range_witness :
  decode_flags (Number.of_Z 133) = decode_flags (Number.of_Z 5).
Proof.
  destruct decoded_messages_range as [_ Hlow].
  exact (Hlow 133 eq_refl).
Defined.

Lemma split_no_separator (raw : string) :
  ¬ contains raw " " → split " " raw = [raw].
Proof.
  induction raw as [|c raw IH]; [done|]. intros Hno. cbn [split].
  destruct (Ascii.eqb c " ") eqn:Hc.
  - apply Ascii.eqb_eq in Hc. subst c. destruct Hno.
    by exists EmptyString, raw.
  - rewrite IH; [done|]. intros Hin. apply Hno. by apply contains_later.
Qed.

(** X17.  A header of a single token (no space in it) is decoded without
    an error and with every missing token read as undefined: the record
    then holds railgun metadata in which id is the whole header, version is
    undefined, the flags bitset is NaN and no message is listed; in the
    format without "normal" compression is "NaN%" and time is
    "undefinedsec". *)
Theorem single_token_header (this : Request) (raw : string) :
  property (headers this) "CF-RAILGUN" = VStr raw →
  ¬ contains raw " " →
  ∃ this',
    processRailgunHeader this = Normal this'
    ∧ getRailgunMetaData this'
      = Some {| rg_normal := Some (negb (indexOf raw "normal" =? -1));
                rg_id := Some (VStr raw);
                rg_version := Some VUndefined;
                rg_compression :=
                  if negb (indexOf raw "normal" =? -1) then None else Some "NaN%";
                rg_time :=
                  if negb (indexOf raw "normal" =? -1) then None
                  else Some "undefinedsec";
                rg_flags := Some NaN;
                rg_messages := Some [] |}.
Proof.
  intros Hraw Hno. pose proof (split_no_separator raw Hno) as Hsplit.
  destruct (negb (indexOf raw "normal" =? -1)) eqn:Hn.
  - apply indexOf_contains in Hn. eexists.
    split; [by apply processRailgunHeader_normal|].
    cbn [getRailgunMetaData railgunMetaData set_railgunMetaData]. by rewrite Hsplit.
  - apply indexOf_not_contains in Hn. eexists.
    split; [by apply processRailgunHeader_other|].
    cbn [getRailgunMetaData railgunMetaData set_railgunMetaData]. by rewrite Hsplit.
Qed.

Lemma single_token_header_witness :
  ∃ this',
    processRailgunHeader (railgun_request (VStr "direct")) = Normal this'
    ∧ getRailgunMetaData this'
      = Some {| rg_normal := Some false;
                rg_id := Some (VStr "direct");
                rg_version := Some VUndefined;
                rg_compression := Some "NaN%";
                rg_time := Some "undefinedsec";
                rg_flags := Some NaN;
                rg_messages := Some [] |}.
Proof.
  apply (single_token_header (railgun_request (VStr "direct")) "direct").
  - reflexivity.
  - apply indexOf_not_contains. reflexivity.
Defined.

(** ** More on the icon *)

(** X18.  For records with a string server ip the icon path tells the four
    features apart: two records get the same path exactly when they agree
    on served-by-CloudFlare, on the truthiness of the stored transport
    status, on a colon in the server ip and on served-by-Railgun. *)
Theorem icon_path_separates_features (a b : Request) (sa sb : string) :
  getServerIP a = VStr sa →
  getServerIP b = VStr sb →
  getPageActionPath a = getPageActionPath b
  ↔ servedByCloudFlare a = servedByCloudFlare b
    ∧ ToBoolean (servedOverSPDY a) = ToBoolean (servedOverSPDY b)
    ∧ ip_has_colon (getServerIP a) = ip_has_colon (getServerIP b)
    ∧ servedByRailgun a = servedByRailgun b.
Proof.
  intros Ha Hb.
  rewrite (getPageActionPath_string a sa Ha), (getPageActionPath_string b sb Hb).
  rewrite Ha, Hb. cbn [ip_has_colon].
  destruct (servedByCloudFlare a), (servedByCloudFlare b),
    (ToBoolean (servedOverSPDY a)), (ToBoolean (servedOverSPDY b)),
    (negb (indexOf sa ":" =? -1)), (negb (indexOf sb ":" =? -1)),
    (servedByRailgun a), (servedByRailgun b);
    (split; [intros H; vm_compute in H; first [done | discriminate H]
            | intros (H1 & H2 & H3 & H4); first [done | discriminate]]).
Qed.

Lemma icon_path_separates_features_witness :
  getPageActionPath request_all_features ≠ getPageActionPath request_no_features.
Proof.
  intros Heq.
  apply (icon_path_separates_features request_all_features request_no_features
           "2001:db8::1" "192.0.2.1" eq_refl eq_refl) in Heq.
  destruct Heq as [Hcf _]. discriminate Hcf.
Defined.

(** ** Invariants of the registry and the heap *)

Lemma keeps_registry_injective {A} (m : M A) (w : World) :
  keeps_store m → registry_injective w → registry_injective (fst (m w)).
Proof. intros Hm Hw t1 t2 l. destruct (Hm w) as [-> _]. apply Hw. Qed.

Lemma registry_injective_processCompletedRequest (d : Details) (w : World) :
  registry_in_heap w → registry_injective w →
  registry_injective (fst (processCompletedRequest d w)).
Proof.
  intros Hin Hinj. destruct (new_Request d) as [r|e] eqn:Hr.
  - destruct (processCompletedRequest_store w d r Hr) as [_ Hq].
    intros t1 t2 l. rewrite Hq.
    destruct (decide (tabId d = t1)) as [<-|Hne1],
             (decide (tabId d = t2)) as [<-|Hne2]; [done|..].
    + rewrite lookup_insert_eq, lookup_insert_ne by done.
      intros [= <-] Hl%Hin. lia.
    + rewrite lookup_insert_eq, lookup_insert_ne by done.
      intros Hl%Hin [= <-]. lia.
    + rewrite !lookup_insert_ne by done. apply Hinj.
  - unfold processCompletedRequest. run. by rewrite Hr.
Qed.

Lemma registry_injective_onReplaced (addedTabId removedTabId : Z) (w : World) :
  registry_injective w →
  registry_injective (fst (onReplaced addedTabId removedTabId w)).
Proof.
  intros Hinj. destruct (requests w !! removedTabId) as [request|] eqn:Hl.
  - rewrite (onReplaced_present w _ _ _ Hl). intros t1 t2 l. cbn.
    destruct (decide (removedTabId = t1)) as [<-|Hr1];
      [by rewrite lookup_delete_eq|].
    destruct (decide (removedTabId = t2)) as [<-|Hr2];
      [by rewrite (lookup_delete_eq _ removedTabId)|].
    rewrite !lookup_delete_ne by done.
    destruct (decide (addedTabId = t1)) as [<-|Ha1],
             (decide (addedTabId = t2)) as [<-|Ha2]; [done|..].
    + rewrite lookup_insert_eq, lookup_insert_ne by done.
      intros [= <-] H2. destruct Hr2. by apply (Hinj _ _ request).
    + rewrite lookup_insert_eq, lookup_insert_ne by done.
      intros H1 [= <-]. destruct Hr1. by apply (Hinj _ _ request).
    + rewrite !lookup_insert_ne by done. apply Hinj.
  - by rewrite (onReplaced_absent w _ _ Hl).
Qed.

Lemma registry_injective_onRemoved (tabId : Z) (w : World) :
  registry_injective w → registry_injective (fst (onRemoved tabId w)).
Proof.
  intros Hinj t1 t2 l. cbn.
  destruct (decide (tabId = t1)) as [<-|H1]; [by rewrite lookup_delete_eq|].
  destruct (decide (tabId = t2)) as [<-|H2];
    [by rewrite (lookup_delete_eq _ tabId)|].
  rewrite !lookup_delete_ne by done. apply Hinj.
Qed.

Lemma deliver_registry (i : Input) (w : World) :
  registry_in_heap w ∧ registry_injective w →
  registry_in_heap (fst (deliver i w)) ∧ registry_injective (fst (deliver i w)).
Proof.
  intros [Hin Hinj]. destruct i; cbn [deliver].
  - split; [by apply registry_in_heap_processCompletedRequest
           | by apply registry_injective_processCompletedRequest].
  - split; [by apply registry_in_heap_onReplaced
           | by apply registry_injective_onReplaced].
  - split; [by apply registry_in_heap_onRemoved
           | by apply registry_injective_onRemoved].
  - split; [apply keeps_registry_in_heap | apply keeps_registry_injective];
      auto using keeps_onDOMContentLoaded.
  - split; [apply keeps_registry_in_heap | apply keeps_registry_injective];
      auto using keeps_onMessage.
  - split; [apply keeps_registry_in_heap | apply keeps_registry_injective];
      auto using keeps_cs_message_callback.
  - split; [apply keeps_registry_in_heap | apply keeps_registry_injective];
      auto using keeps_setIcon_callback.
Qed.

(** X19.  Whatever the host delivers, in whatever order, and whichever
    handlers throw on the way: every entry of the registry refers to a record
    in the heap, and no two tab ids refer to the same record. *)
Theorem registry_invariant (inputs : list Input) (w : World) :
  registry_in_heap w →
  registry_injective w →
  registry_in_heap (run_inputs inputs w)
  ∧ registry_injective (run_inputs inputs w).
Proof.
  revert w. induction inputs as [|i inputs IH]; intros w Hin Hinj; [done|].
  cbn [run_inputs]. destruct (deliver_registry i w (conj Hin Hinj)) as [Hin' Hinj'].
  by apply IH.
Qed.

Lemma registry_invariant_witness :
  registry_in_heap (run_inputs example_inputs initial_world)
  ∧ registry_injective (run_inputs example_inputs initial_world).
Proof.
  apply (registry_invariant example_inputs initial_world).
  - intros t l Hl. discriminate Hl.
  - intros t1 t2 l Hl. discriminate Hl.
Defined.

Lemma same_capture_refl (r : Request) : same_capture r r.
Proof. by repeat split. Qed.

Lemma same_capture_trans (r1 r2 r3 : Request) :
  same_capture r1 r2 → same_capture r2 r3 → same_capture r1 r3.
Proof.
  intros (Hd & Hr & Hh & Hm & Hk) (Hd' & Hr' & Hh' & Hm' & Hk').
  repeat split; try congruence. auto.
Qed.

Lemma heap_evolves_refl (h : list Request) : heap_evolves h h.
Proof. intros l r Hl. exists r. split; [done | apply same_capture_refl]. Qed.

Lemma heap_evolves_trans (h1 h2 h3 : list Request) :
  heap_evolves h1 h2 → heap_evolves h2 h3 → heap_evolves h1 h3.
Proof.
  intros H12 H23 l r Hl. destruct (H12 l r Hl) as (r2 & Hl2 & Hc2).
  destruct (H23 l r2 Hl2) as (r3 & Hl3 & Hc3). exists r3.
  split; [done | by eapply same_capture_trans].
Qed.

Lemma heap_evolves_alter (f : Request → Request) (l : nat) (h : list Request) :
  (∀ r, same_capture r (f r)) → heap_evolves h (alter f l h).
Proof.
  intros Hf l' r Hl'. destruct (decide (l = l')) as [<-|Hne].
  - exists (f r). split; [by rewrite list_lookup_alter_eq, Hl' | apply Hf].
  - exists r. split; [by rewrite list_lookup_alter_ne | apply same_capture_refl].
Qed.

Lemma evolving_only_emits {A} (m : M A) : only_emits m → evolving m.
Proof. intros Hm w. destruct (Hm w) as (-> & _). apply heap_evolves_refl. Qed.

Lemma evolving_bind {A B} (m : M A) (f : A → M B) :
  evolving m → (∀ a, evolving (f a)) → evolving (m ≫= f).
Proof.
  intros Hm Hf w. specialize (Hm w). unfold mbind, M_bind.
  destruct (m w) as [w1 [a|e]]; [|done].
  eapply heap_evolves_trans; [exact Hm | apply Hf].
Qed.

Lemma evolving_store (l : nat) (f : Request → Request) :
  (∀ r, same_capture r (f r)) → evolving (store l f).
Proof. intros Hf w. by apply heap_evolves_alter. Qed.

Lemma evolving_alloc (r : Request) : evolving (alloc r).
Proof.
  intros w l r' Hl. exists r'. split; [by apply lookup_app_l_Some|].
  apply same_capture_refl.
Qed.

Lemma evolving_update_requests (f : gmap Z nat → gmap Z nat) :
  evolving (update_requests f).
Proof. intros w. apply heap_evolves_refl. Qed.

Lemma evolving_setSPDYStatus (this : nat) (status : val) :
  evolving (setSPDYStatus this status).
Proof.
  unfold setSPDYStatus. apply evolving_bind; [|intros _];
    apply evolving_store; intros r; by repeat split.
Qed.

Lemma evolving_deliver (i : Input) : evolving (deliver i).
Proof.
  pose proof only_emits_setPageActionIconAndPopup.
  pose proof only_emits_querySPDYStatusAndSetIcon.
  destruct i; cbn [deliver].
  - unfold processCompletedRequest.
    apply evolving_bind; [apply evolving_only_emits; emits|]. intros r.
    apply evolving_bind; [apply evolving_alloc|]. intros l.
    apply evolving_bind; [apply evolving_update_requests|]. intros _.
    apply evolving_only_emits, only_emits_logToConsole.
  - intros w. destruct (requests w !! removedTabId) as [request|] eqn:Hl.
    + rewrite (onReplaced_present w _ _ _ Hl). apply heap_evolves_refl.
    + rewrite (onReplaced_absent w _ _ Hl). apply heap_evolves_refl.
  - apply evolving_update_requests.
  - apply evolving_only_emits. unfold onDOMContentLoaded. emits.
  - unfold onMessage. destruct (tab_id sender) as [id|];
      [|apply evolving_only_emits; emits].
    apply evolving_bind; [apply evolving_only_emits; emits|]. intros w.
    apply evolving_bind; [|intros _; apply evolving_only_emits; emits].
    destruct (requests w !! id) as [request|]; [|apply evolving_only_emits; emits].
    apply evolving_bind; [apply evolving_only_emits; emits|]. intros r.
    apply evolving_setSPDYStatus.
  - unfold cs_message_callback. destruct cs_msg_response as [response|];
      [|apply evolving_only_emits; emits].
    apply evolving_bind; [apply evolving_only_emits; emits|]. intros w.
    destruct (requests w !! tabID) as [request|]; [|apply evolving_only_emits; emits].
    apply evolving_bind; [|intros _; apply evolving_only_emits; emits].
    apply evolving_store. intros r. by repeat split.
  - apply evolving_only_emits. unfold setIcon_callback. emits.
Qed.

(** X20.  What a record captured when it was constructed never changes:
    whatever the host delivers afterwards, the record is still in the heap
    at its location with the same details, raw headers, header map and
    railgun metadata (only the transport status can differ), and a status
    that was known stays known. *)
Theorem record_capture_is_immutable (inputs : list Input) (w : World) (l : nat)
    (r : Request) :
  heap w !! l = Some r →
  ∃ r', heap (run_inputs inputs w) !! l = Some r'
        ∧ details r' = details r
        ∧ headersRaw r' = headersRaw r
        ∧ headers r' = headers r
        ∧ railgunMetaData r' = railgunMetaData r
        ∧ (hasSPDYStatus r = true → hasSPDYStatus r' = true).
Proof.
  assert (heap_evolves (heap w) (heap (run_inputs inputs w))) as Hev.
  { revert w. induction inputs as [|i inputs IH]; intros w;
      [apply heap_evolves_refl|].
    cbn [run_inputs]. eapply heap_evolves_trans; [apply evolving_deliver | apply IH]. }
  intros Hl. destruct (Hev l r Hl) as (r' & Hl' & Hc). by exists r'.
Qed.

Lemma record_capture_is_immutable_witness :
  ∃ r', heap (run_inputs example_inputs initial_world) !! 0%nat = Some r'
        ∧ details r' = details_tab1
        ∧ headers r' = {[ "SERVER" := VStr "cloudflare-nginx" ]}.
Proof.
  destruct (record_capture_is_immutable
              (tail example_inputs) world_tracking_tab1 0%nat request_tab1 eq_refl)
    as (r' & Hl & Hd & _ & Hh & _).
  exists r'. split; [exact Hl|]. split; [exact Hd | exact Hh].
Defined.

(** ** From a completed request to the icon *)

Lemma processCompletedRequest_host (w : World) (d : Details) :
  host (fst (processCompletedRequest d w)) = host w.
Proof.
  unfold processCompletedRequest. run. destruct (new_Request d) as [r|e]; [|done].
  match goal with |- context [logToConsole ?l ?w0] =>
    destruct (only_emits_logToConsole l w0) as (_ & _ & _ & Hhost & _);
    destruct (logToConsole l w0) as [w1 c]
  end.
  cbn in Hhost. by destruct c.
Qed.

(** X21.  The path from a completed request to its icon: the record starts
    without a transport status, so the first top-frame DOM-content-loaded
    event of the tab sends one query to the tab and sets no icon; the
    reply then publishes one icon for the tab, whose variant has "spdy"
    exactly when the replied status is truthy. *)
Theorem completed_request_to_icon (w : World) (d : Details) (r : Request)
    (s : string) (response : Message) :
  new_Request d = Normal r →
  ip d = VStr s →
  sendMessage_throws (host w) (tabId d) = false →
  let w1 := fst (processCompletedRequest d w) in
  let w2 := fst (onDOMContentLoaded {| nav_tabId := tabId d; frameId := 0 |} w1) in
  let w3 := fst (cs_message_callback (tabId d) (Some response) w2) in
  trace w2 = (trace w1 ++ [tabs_sendMessage (tabId d) "check_spdy_status"])%list
  ∧ trace w3
    = (trace w2 ++
       [pageAction_setIcon (tabId d)
          ("images/claire-3-"
           +:+ spec_icon_variant (servedByCloudFlare r)
                 (ToBoolean (spdy response)) (ip_has_colon (VStr s))
                 (servedByRailgun r)
           +:+ ".png")])%list
  ∧ snd (cs_message_callback (tabId d) (Some response) w2) = Normal tt.
Proof.
  intros Hr Hip Hhost w1 w2 w3.
  destruct (new_Request_shape d r Hr) as (hs & this & _ & Hd & _ & Hunknown & _).
  destruct (processCompletedRequest_store w d r Hr) as [Hheap Hreq].
  fold w1 in Hheap, Hreq.
  assert (requests w1 !! tabId d = Some (length (heap w))) as Hl
    by (rewrite Hreq; apply lookup_insert_eq).
  assert (heap w1 !! length (heap w) = Some r) as Hobj
    by (by rewrite Hheap, lookup_app_r, Nat.sub_diag).
  assert (host w1 = host w) as Hhost1 by apply processCompletedRequest_host.
  assert (onDOMContentLoaded {| nav_tabId := tabId d; frameId := 0 |} w1
          = (set_trace (trace w1 ++ [tabs_sendMessage (tabId d) "check_spdy_status"])
               w1, Normal tt)) as Hdom.
  { unfold onDOMContentLoaded. cbn [frameId nav_tabId Z.gtb Z.compare]. run.
    rewrite Hl. rewrite (querySPDYStatusAndSetIcon_unknown w1 _ r Hobj Hunknown);
      rewrite Hd; [done|]. by rewrite Hhost1. }
  subst w3 w2. rewrite Hdom. cbn [fst trace set_trace].
  split; [done|].
  unfold cs_message_callback. run. rewrite Hl. run.
  set (w' := set_heap _ _).
  assert (heap w' !! length (heap w) = Some (set_SPDY (spdy response) r)) as Hobj'
    by (subst w'; cbn; by rewrite list_lookup_alter_eq, Hobj).
  assert (getServerIP (set_SPDY (spdy response) r) = VStr s) as Hip'
    by (unfold getServerIP; cbn; by rewrite Hd).
  destruct (setPageActionIconAndPopup_run w' _ _ s Hobj' Hip') as (path & Hpath & Hrun).
  rewrite Hrun. cbn [fst snd trace set_trace]. split; [|done].
  rewrite (getPageActionPath_string _ s Hip') in Hpath. injection Hpath as <-.
  subst w'. cbn. by rewrite Hd.
Qed.

Lemma completed_request_to_icon_witness :
  let w1 := fst (processCompletedRequest details_tab1 initial_world) in
  let w2 := fst (onDOMContentLoaded {| nav_tabId := 1; frameId := 0 |} w1) in
  let w3 := fst (cs_message_callback 1 (Some {| spdy := VBool true |}) w2) in
  trace w3 = [tabs_sendMessage 1 "check_spdy_status";
              pageAction_setIcon 1 "images/claire-3-on-spdy.png"].
Proof.
  destruct (completed_request_to_icon initial_world details_tab1 request_tab1
              "192.0.2.1" {| spdy := VBool true |} eq_refl eq_refl eq_refl)
    as (_ & Hicon & _).
  refine (eq_trans Hicon _). reflexivity.
Defined.
